(** * patternmatcher: ordered glob rules over file paths

    A shallow embedding of [patternmatcher.go] (the rule compiler [Compile]
    and [NewPattern], the single-rule predicate [Pattern.Match], and the two
    evaluators [MatchesOrParentMatches] and [MatchesUsingParentResults]) for
    the non-Windows build, where [os.PathSeparator] is the slash and
    [filepath.FromSlash] is the identity.

    Go strings are byte strings and are modelled as [string]; runes and
    bytes are modelled as [Z].  The parts of the Go standard library the
    program calls ([unicode/utf8], [strings], [path/filepath],
    [text/scanner], [regexp]) are modelled in modules of the same names. *)

From Stdlib Require Import ZArith List String Ascii Bool Arith Lia.
Import ListNotations.

Local Open Scope list_scope.
Local Open Scope string_scope.

(** ** Outcomes of a call

    A Go call of this package returns normally, returns a non-nil error, or
    panics (an index or a slice out of range, a nil dereference).  [Beyond]
    is not an outcome of the program: it marks the inputs on which the model
    of a library function takes no position (an expression that uses regexp
    syntax outside the modelled fragment), or that a loop written with a
    count of its steps has used the count up, which [filepath.Match] is
    shown never to do. *)

Inductive error : Type :=
| ErrIllegalExclusion      (* illegal exclusion pattern: "!" *)
| ErrWrongParentMatched    (* wrong number of values in parentMatched *)
| ErrRegexpSyntax          (* the error of regexp.Compile *)
| ErrBadPattern.           (* filepath.ErrBadPattern *)

Inductive outcome (A : Type) : Type :=
| Ret (a : A)
| Fail (e : error)
| Panics
| Beyond.

Arguments Ret {A} a.
Arguments Fail {A} e.
Arguments Panics {A}.
Arguments Beyond {A}.

Definition bind {A B : Type} (x : outcome A) (f : A -> outcome B) : outcome B :=
  match x with
  | Ret a => f a
  | Fail e => Fail e
  | Panics => Panics
  | Beyond => Beyond
  end.

Notation "x <- c ;; k" := (bind c (fun x => k))
  (at level 61, c at next level, right associativity).

(** The code point of an ASCII character, as a rune or a byte value. *)
Definition cp (a : ascii) : Z := Z.of_N (N_of_ascii a).

Definition byte_of (z : Z) : ascii := ascii_of_N (Z.to_N z).

(** The byte [s[i]], for [i < len(s)]. *)
Definition byte_at (s : string) (i : nat) : ascii :=
  match String.get i s with
  | Some c => c
  | None => Ascii.zero
  end.

(** ** unicode/utf8 *)
Module utf8.

Definition RuneError : Z := 65533.   (* U+FFFD *)
Definition RuneSelf : Z := 128.
Definition MaxRune : Z := 1114111.   (* U+10FFFF *)

Definition between (lo x hi : Z) : bool := (lo <=? x)%Z && (x <=? hi)%Z.

(** The size of the sequence a first byte announces and the range accepted
    for its second byte (the tables [first] and [acceptRanges]); [None] for
    a byte that starts no sequence. *)
Definition first (b0 : Z) : option (nat * Z * Z) :=
  if between 194 b0 223 then Some (2%nat, 128, 191)%Z
  else if (b0 =? 224)%Z then Some (3%nat, 160, 191)%Z
  else if between 225 b0 236 then Some (3%nat, 128, 191)%Z
  else if (b0 =? 237)%Z then Some (3%nat, 128, 159)%Z
  else if between 238 b0 239 then Some (3%nat, 128, 191)%Z
  else if (b0 =? 240)%Z then Some (4%nat, 144, 191)%Z
  else if between 241 b0 243 then Some (4%nat, 128, 191)%Z
  else if (b0 =? 244)%Z then Some (4%nat, 128, 143)%Z
  else None.

Definition low6 (b : Z) : Z := Z.land b 63.

(** [DecodeRuneInString]: the first rune of [s] and its width in bytes;
    an invalid or truncated sequence is [RuneError] of width 1. *)
Definition DecodeRuneInString (s : string) : Z * nat :=
  match s with
  | EmptyString => (RuneError, 0)
  | String c0 s1 =>
    let b0 := cp c0 in
    if (b0 <? RuneSelf)%Z then (b0, 1)
    else
      match first b0 with
      | None => (RuneError, 1)
      | Some (sz, lo, hi) =>
        match s1 with
        | EmptyString => (RuneError, 1)
        | String c1 s2 =>
          let b1 := cp c1 in
          if negb (between lo b1 hi) then (RuneError, 1)
          else if (sz <=? 2)%nat then
            (Z.lor (Z.shiftl (Z.land b0 31) 6) (low6 b1), 2)
          else
            match s2 with
            | EmptyString => (RuneError, 1)
            | String c2 s3 =>
              let b2 := cp c2 in
              if negb (between 128 b2 191) then (RuneError, 1)
              else if (sz <=? 3)%nat then
                (Z.lor (Z.shiftl (Z.land b0 15) 12)
                   (Z.lor (Z.shiftl (low6 b1) 6) (low6 b2)), 3)
              else
                match s3 with
                | EmptyString => (RuneError, 1)
                | String c3 _ =>
                  let b3 := cp c3 in
                  if negb (between 128 b3 191) then (RuneError, 1)
                  else
                    (Z.lor (Z.shiftl (Z.land b0 7) 18)
                       (Z.lor (Z.shiftl (low6 b1) 12)
                          (Z.lor (Z.shiftl (low6 b2) 6) (low6 b3))), 4)
                end
            end
        end
      end
  end.

(** The runes of a string, decoded one after the other; [skip] counts the
    bytes still to pass over of the rune decoded last. *)
Fixpoint runes_from (skip : nat) (s : string) : list Z :=
  match s with
  | EmptyString => []
  | String _ s1 =>
    match skip with
    | S k => runes_from k s1
    | O => let (r, n) := DecodeRuneInString s in r :: runes_from (n - 1) s1
    end
  end.

Definition runes (s : string) : list Z := runes_from 0 s.

(** [string(r)] for a rune [r]: its UTF-8 encoding, that of [RuneError] for
    a value that is no code point. *)
Definition EncodeRune (r : Z) : string :=
  let r := if (r <? 0)%Z || (MaxRune <? r)%Z || between 55296 r 57343
           then RuneError else r in
  if (r <=? 127)%Z then String (byte_of r) EmptyString
  else if (r <=? 2047)%Z then
    String (byte_of (Z.lor 192 (Z.shiftr r 6)))
      (String (byte_of (Z.lor 128 (low6 r))) EmptyString)
  else if (r <=? 65535)%Z then
    String (byte_of (Z.lor 224 (Z.shiftr r 12)))
      (String (byte_of (Z.lor 128 (low6 (Z.shiftr r 6))))
         (String (byte_of (Z.lor 128 (low6 r))) EmptyString))
  else
    String (byte_of (Z.lor 240 (Z.shiftr r 18)))
      (String (byte_of (Z.lor 128 (low6 (Z.shiftr r 12))))
         (String (byte_of (Z.lor 128 (low6 (Z.shiftr r 6))))
            (String (byte_of (Z.lor 128 (low6 r))) EmptyString))).

Definition UTFMax : nat := 4.

(** [RuneStart]: the byte could be the first byte of an encoded rune. *)
Definition RuneStart (b : Z) : bool := negb (Z.land b 192 =? 128)%Z.

(** The loop of [DecodeLastRuneInString] that goes back from [start] to a
    byte that starts a rune, not below [lim]; it makes fewer than [UTFMax]
    steps, and [n] counts those left. *)
Fixpoint lastStart (n : nat) (s : string) (start lim : Z) : Z :=
  match n with
  | O => start
  | S n' =>
    if (start <? lim)%Z then start
    else if RuneStart (cp (byte_at s (Z.to_nat start))) then start
    else lastStart n' s (start - 1) lim
  end.

(** [DecodeLastRuneInString]: the last rune of [s] and its width in bytes;
    an invalid sequence is [RuneError] of width 1. *)
Definition DecodeLastRuneInString (s : string) : Z * nat :=
  let end_ := String.length s in
  match end_ with
  | O => (RuneError, 0%nat)
  | S start =>
    let r := cp (byte_at s start) in
    if (r <? RuneSelf)%Z then (r, 1%nat)
    else
      let lim := Z.max 0 (Z.of_nat end_ - Z.of_nat UTFMax) in
      let start := Z.to_nat (Z.max 0 (lastStart UTFMax s (Z.of_nat start - 1) lim)) in
      let '(r, size) := DecodeRuneInString (substring start (end_ - start) s) in
      if (start + size =? end_)%nat then (r, size) else (RuneError, 1%nat)
  end.

End utf8.

(** ** unicode *)
Module unicode.

(** [IsSpace]: the white space of Latin-1 and, above it, the code points
    of the property White_Space. *)
Definition IsSpace (r : Z) : bool :=
  if (r <=? 255)%Z then
    utf8.between 9 r 13 || (r =? 32)%Z || (r =? 133)%Z || (r =? 160)%Z
  else
    (r =? 5760)%Z || utf8.between 8192 r 8202 || (r =? 8232)%Z
    || (r =? 8233)%Z || (r =? 8239)%Z || (r =? 8287)%Z || (r =? 12288)%Z.

End unicode.

(** ** strings *)
Module strings.

Definition HasPrefix (s prefix : string) : bool := String.prefix prefix s.

Definition HasSuffix (s suffix : string) : bool :=
  (String.length suffix <=? String.length s)%nat &&
  String.eqb
    (substring (String.length s - String.length suffix) (String.length suffix) s)
    suffix.

(** [Split(s, sep)] for the one-byte separator [sep]: the pieces between the
    separators, one more than there are separators. *)
Fixpoint Split (s : string) (sep : ascii) : list string :=
  match s with
  | EmptyString => [EmptyString]
  | String c s' =>
    if Ascii.eqb c sep then EmptyString :: Split s' sep
    else
      match Split s' sep with
      | h :: t => String c h :: t
      | [] => [String c EmptyString]
      end
  end.

Fixpoint Join (elems : list string) (sep : string) : string :=
  match elems with
  | [] => EmptyString
  | [e] => e
  | e :: rest => e ++ sep ++ Join rest sep
  end.

Definition asciiSpace (c : ascii) : bool :=
  utf8.between 9 (cp c) 13 || (cp c =? 32)%Z.

(** [Contains(s, substr)] for the one-byte [substr]. *)
Fixpoint Contains (s : string) (substr : ascii) : bool :=
  match s with
  | EmptyString => false
  | String c s' => Ascii.eqb c substr || Contains s' substr
  end.

(** [TrimLeftFunc(s, f)]: [s] from its first rune that does not satisfy
    [f]; the runes are those of [range s], and [skip] counts the bytes
    still to pass over of the rune decoded last. *)
Fixpoint TrimLeftFunc_from (skip : nat) (s : string) (f : Z -> bool) : string :=
  match s with
  | EmptyString => EmptyString
  | String _ s1 =>
    match skip with
    | S k => TrimLeftFunc_from k s1 f
    | O =>
      let (r, n) := utf8.DecodeRuneInString s in
      if f r then TrimLeftFunc_from (n - 1) s1 f else s
    end
  end.

Definition TrimLeftFunc (s : string) (f : Z -> bool) : string :=
  TrimLeftFunc_from 0 s f.

(** [lastIndexFunc(s, f, truth)] from the index [i] down: the index of the
    last rune before [i] on which [f] is [truth], or -1.  Each step takes
    at least one byte off [i], and [fuel], which starts at [len(s)], counts
    the steps left. *)
Fixpoint lastIndexFunc (fuel : nat) (s : string) (i : nat) (f : Z -> bool)
    (truth : bool) : Z :=
  match fuel with
  | O => -1
  | S fuel' =>
    match i with
    | O => -1
    | S _ =>
      let '(r, size) := utf8.DecodeLastRuneInString (substring 0 i s) in
      let i := (i - size)%nat in
      if Bool.eqb (f r) truth then Z.of_nat i
      else lastIndexFunc fuel' s i f truth
    end
  end.

(** [TrimRightFunc(s, f)]: [s] up to its last rune that does not satisfy
    [f]. *)
Definition TrimRightFunc (s : string) (f : Z -> bool) : string :=
  let i := lastIndexFunc (String.length s) s (String.length s) f false in
  let i :=
    if (0 <=? i)%Z && (utf8.RuneSelf <=? cp (byte_at s (Z.to_nat i)))%Z then
      let '(_, wid) :=
        utf8.DecodeRuneInString
          (substring (Z.to_nat i) (String.length s - Z.to_nat i) s) in
      (i + Z.of_nat wid)%Z
    else (i + 1)%Z in
  substring 0 (Z.to_nat i) s.

Definition TrimFunc (s : string) (f : Z -> bool) : string :=
  TrimRightFunc (TrimLeftFunc s f) f.

(** The second loop of [TrimSpace], from the end of [s], which is the
    string from [start] on: at a byte that is not ASCII the rest is left to
    [TrimRightFunc]. *)
Fixpoint TrimSpace_stop (s : string) (stop : nat) : string :=
  match stop with
  | O => EmptyString
  | S stop' =>
    let c := byte_at s stop' in
    if (utf8.RuneSelf <=? cp c)%Z then
      TrimRightFunc (substring 0 stop s) unicode.IsSpace
    else if asciiSpace c then TrimSpace_stop s stop'
    else substring 0 stop s
  end.

(** [TrimSpace]: the first loop, from the start of [s]; at a byte that is
    not ASCII the rest is left to [TrimFunc]. *)
Fixpoint TrimSpace (s : string) : string :=
  match s with
  | EmptyString => EmptyString
  | String c s' =>
    if (utf8.RuneSelf <=? cp c)%Z then TrimFunc s unicode.IsSpace
    else if asciiSpace c then TrimSpace s'
    else TrimSpace_stop s (String.length s)
  end.

End strings.

(** ** path/filepath and os, non-Windows build *)
Module filepath.

Definition Separator : ascii := "/"%char.

Definition FromSlash (path : string) : string := path.

(** One element of the path read by [Clean]: an empty element and [.] are
    dropped, [..] removes the last element written unless there is none to
    remove (then it is written when the path is not rooted, dropped when it
    is), any other element is written.  [out] holds the elements written,
    last first; the elements [..] in it are the leading ones that cannot be
    removed. *)
Definition clean_elem (rooted : bool) (out : list string) (elem : string)
  : list string :=
  if String.eqb elem EmptyString || String.eqb elem "." then out
  else if String.eqb elem ".." then
    match out with
    | top :: rest =>
      if String.eqb top ".." then ".." :: out else rest
    | [] => if rooted then [] else [".."]
    end
  else elem :: out.

(** [Clean]: the shortest path name equivalent to [path] by purely lexical
    processing. *)
Definition Clean (path : string) : string :=
  match path with
  | EmptyString => "."
  | String c0 _ =>
    let rooted := Ascii.eqb c0 Separator in
    let out := fold_left (clean_elem rooted) (strings.Split path Separator) [] in
    let body := strings.Join (rev out) "/" in
    if rooted then "/" ++ body
    else if String.eqb body EmptyString then "." else body
  end.

(** The part of [path] up to and including its last separator. *)
Fixpoint upto_last_separator (path : string) : string :=
  match path with
  | EmptyString => EmptyString
  | String c s' =>
    match upto_last_separator s' with
    | EmptyString =>
      if Ascii.eqb c Separator then String c EmptyString else EmptyString
    | d => String c d
    end
  end.

(** [Dir]: all but the last element of [path], cleaned. *)
Definition Dir (path : string) : string := Clean (upto_last_separator path).

(** *** [filepath.Match]

    [Match] returns whether [name] matches the shell pattern, or
    [ErrBadPattern] when it meets a malformed chunk.  [matchChunk] reads a
    chunk to its end also after the match has failed, so a malformed chunk
    is reported whatever the name; but [Match] returns at the first chunk
    that cannot match and does not read the chunks after it. *)

Definition drop (n : nat) (s : string) : string :=
  substring n (String.length s - n) s.

(** [scanChunk] after the leading stars: the chunk up to the next star
    outside brackets, and the rest of the pattern from that star on. *)
Fixpoint scanChunk_scan (pattern : string) (inrange : bool) : string * string :=
  match pattern with
  | EmptyString => (EmptyString, EmptyString)
  | String c t =>
    if Ascii.eqb c "\"%char then
      match t with
      | String c2 t2 =>
        let '(chunk, rest) := scanChunk_scan t2 inrange in
        (String c (String c2 chunk), rest)
      | EmptyString => (String c EmptyString, EmptyString)
      end
    else if Ascii.eqb c "*"%char && negb inrange then (EmptyString, pattern)
    else
      let inrange := if Ascii.eqb c "["%char then true
                     else if Ascii.eqb c "]"%char then false else inrange in
      let '(chunk, rest) := scanChunk_scan t inrange in
      (String c chunk, rest)
  end.

Fixpoint skipStars (pattern : string) : string :=
  match pattern with
  | String c t => if Ascii.eqb c "*"%char then skipStars t else pattern
  | EmptyString => pattern
  end.

(** [scanChunk]: whether the pattern begins with stars, the chunk behind
    them, and the rest of the pattern. *)
Definition scanChunk (pattern : string) : bool * string * string :=
  let star := match pattern with
              | String c _ => Ascii.eqb c "*"%char
              | EmptyString => false
              end in
  let '(chunk, rest) := scanChunk_scan (skipStars pattern) false in
  (star, chunk, rest).

(** [getEsc]: a possibly escaped character of a class, and what follows
    it, which must not be empty. *)
Definition getEsc (chunk : string) : outcome (Z * string) :=
  match chunk with
  | EmptyString => Fail ErrBadPattern
  | String c t =>
    if Ascii.eqb c "-"%char || Ascii.eqb c "]"%char then Fail ErrBadPattern
    else
      let chunk := if Ascii.eqb c "\"%char then t else chunk in
      match chunk with
      | EmptyString => Fail ErrBadPattern
      | String _ _ =>
        let '(r, n) := utf8.DecodeRuneInString chunk in
        let nchunk := drop n chunk in
        if ((r =? utf8.RuneError)%Z && (n =? 1)%nat)
           || String.eqb nchunk EmptyString
        then Fail ErrBadPattern
        else Ret (r, nchunk)
      end
  end.

(** The ranges of a class, up to the bracket that closes it after a first
    range: whether the rune [r] is in one of them, and what follows the
    class.  Each range takes at least one byte off the chunk, and [fuel]
    counts the ranges left. *)
Fixpoint classRanges (fuel : nat) (chunk : string) (r : Z) (nrange : nat)
    (matched : bool) : outcome (bool * string) :=
  match fuel with
  | O => Beyond
  | S fuel' =>
    let closes := match chunk with
                  | String c _ => Ascii.eqb c "]"%char && (0 <? nrange)%nat
                  | EmptyString => false
                  end in
    if closes then Ret (matched, drop 1 chunk)
    else
      x <- getEsc chunk ;;
      let '(lo, chunk) := x in
      match chunk with
      | EmptyString => Panics                      (* chunk[0] *)
      | String c t =>
        y <- (if Ascii.eqb c "-"%char then getEsc t else Ret (lo, chunk)) ;;
        let '(hi, chunk) := y in
        classRanges fuel' chunk r (S nrange)
          (matched || ((lo <=? r)%Z && (r <=? hi)%Z))
      end
  end.

(** [matchChunk]: [Some rest] when the chunk matches the beginning of [s],
    [None] when it does not.  [failed] records that the match has failed;
    the chunk is then still read to its end.  Each step takes at least one
    byte off the chunk, and [fuel] counts the steps left. *)
Fixpoint matchChunk_loop (fuel : nat) (chunk s : string) (failed : bool)
  : outcome (option string) :=
  match fuel with
  | O => Beyond
  | S fuel' =>
    match chunk with
    | EmptyString => if failed then Ret None else Ret (Some s)
    | String c chunk1 =>
      let failed := failed || (String.length s =? 0)%nat in
      if Ascii.eqb c "["%char then
        (* character class *)
        let '(r, s) :=
          if negb failed then
            let '(r, n) := utf8.DecodeRuneInString s in (r, drop n s)
          else (0%Z, s) in
        (* possibly negated *)
        let '(negated, chunk2) :=
          match chunk1 with
          | String n t => if Ascii.eqb n "^"%char then (true, t)
                          else (false, chunk1)
          | EmptyString => (false, chunk1)
          end in
        (* parse all ranges *)
        x <- classRanges (S (String.length chunk2)) chunk2 r 0 false ;;
        let '(matched, chunk3) := x in
        matchChunk_loop fuel' chunk3 s (failed || Bool.eqb matched negated)
      else if Ascii.eqb c "?"%char then
        if negb failed then
          match s with
          | EmptyString => Panics                  (* s[0] *)
          | String s0 _ =>
            let '(_, n) := utf8.DecodeRuneInString s in
            matchChunk_loop fuel' chunk1 (drop n s) (Ascii.eqb s0 Separator)
          end
        else matchChunk_loop fuel' chunk1 s failed
      else
        chunk <- (if Ascii.eqb c "\"%char then
                    match chunk1 with
                    | EmptyString => Fail ErrBadPattern
                    | String _ _ => Ret chunk1
                    end
                  else Ret chunk) ;;
        match chunk with
        | EmptyString => Panics                    (* chunk[0] *)
        | String c0 chunk1 =>
          if negb failed then
            match s with
            | EmptyString => Panics                (* s[0] *)
            | String s0 s1 =>
              matchChunk_loop fuel' chunk1 s1 (negb (Ascii.eqb c0 s0))
            end
          else matchChunk_loop fuel' chunk1 s failed
        end
    end
  end.

Definition matchChunk (chunk s : string) : outcome (option string) :=
  matchChunk_loop (S (String.length chunk)) chunk s false.

(** The loop of [Match] behind a star, which looks for a match of the chunk
    after skipping [i + 1] bytes of the name, none of them a separator:
    [Some t] when the loop over the pattern goes on with the name [t],
    [None] when no skip gives a match.  [last] is set when the pattern ends
    with the chunk. *)
Fixpoint Match_skip (chunk : string) (last : bool) (name : string)
  : outcome (option string) :=
  match name with
  | EmptyString => Ret None
  | String c rest =>
    if Ascii.eqb c Separator then Ret None
    else
      x <- matchChunk chunk rest ;;
      match x with
      | Some t =>
        (* if we're the last chunk, make sure we exhausted the name *)
        if last && negb (String.length t =? 0)%nat
        then Match_skip chunk last rest
        else Ret (Some t)
      | None => Match_skip chunk last rest
      end
  end.

(** The loop of [Match] over the chunks of the pattern.  Each chunk takes
    at least one byte off the pattern, and [fuel] counts the chunks
    left. *)
Fixpoint Match_loop (fuel : nat) (pattern name : string) : outcome bool :=
  match fuel with
  | O => Beyond
  | S fuel' =>
    match pattern with
    | EmptyString => Ret (String.length name =? 0)%nat
    | String _ _ =>
      let '(star, chunk, pattern) := scanChunk pattern in
      if star && String.eqb chunk EmptyString then
        (* Trailing * matches rest of string unless it has a /. *)
        Ret (negb (strings.Contains name Separator))
      else
        (* Look for match at current position. *)
        x <- matchChunk chunk name ;;
        let last := (String.length pattern =? 0)%nat in
        let next :=
          match x with
          | Some t => if (String.length t =? 0)%nat || negb last
                      then Some t else None
          | None => None
          end in
        match next with
        | Some t => Match_loop fuel' pattern t
        | None =>
          if star then
            y <- Match_skip chunk last name ;;
            match y with
            | Some t => Match_loop fuel' pattern t
            | None => Ret false
            end
          else Ret false
        end
    end
  end.

(** [Match]. *)
Definition Match (pattern name : string) : outcome bool :=
  Match_loop (S (String.length pattern)) pattern name.

End filepath.

(** ** text/scanner

    [Compile] only calls [Init], [Peek] and [Next].  The scanner delivers the
    runes of its source one by one, [RuneError] for a byte that is not valid
    UTF-8, and ignores a byte order mark at the very start of the source
    (the first [Peek] reads past it). *)
Module scanner.

Definition EOF : Z := (-1)%Z.
Definition BOM : Z := 65279.   (* U+FEFF *)

(** The state of the scanner: the runes not read yet. *)
Definition Scanner : Type := list Z.

Definition Init (src : string) : Scanner :=
  match utf8.runes src with
  | r :: rest => if (r =? BOM)%Z then rest else r :: rest
  | [] => []
  end.

Definition Peek (s : Scanner) : Z :=
  match s with
  | [] => EOF
  | ch :: _ => ch
  end.

Definition Next (s : Scanner) : Z * Scanner :=
  match s with
  | [] => (EOF, [])
  | ch :: rest => (ch, rest)
  end.

End scanner.

(** ** regexp

    A model of the fragment of Go's [regexp] (RE2 syntax with the Perl
    flags) that [Compile] below can generate without a letter or digit after
    a backslash: literals, escaped punctuation, [.], character classes of
    single characters and ranges, groups, alternation, the operators [*],
    [+] and [?], and the anchors.  Without the multi-line flag the anchors
    are those of the text, [.] does not match a newline and a negated class
    does.  On syntax outside the fragment the model answers [Beyond]. *)
Module regexp.

Inductive regex : Type :=
| Empty
| Lit (r : Z)
| AnyCharNotNL
| CharClass (negated : bool) (ranges : list (Z * Z))
| BeginText
| EndText
| Concat (a b : regex)
| Alternate (a b : regex)
| Star (a : regex)
| Plus (a : regex)
| Quest (a : regex).

(** A compiled expression: its source text ([Regexp.String]) and its
    syntax tree. *)
Record Regexp : Type := { expr : string; prog : regex }.

Definition isalnum (c : Z) : bool :=
  utf8.between (cp "0") c (cp "9") || utf8.between (cp "A") c (cp "Z")
  || utf8.between (cp "a") c (cp "z").

(** [parseEscape] after the backslash: an escaped ASCII character that is
    neither letter nor digit is itself; an escaped non-ASCII rune is an
    error; the escapes made of letters and digits are not modelled. *)
Definition escaped (c : Z) : outcome Z :=
  if (c <? utf8.RuneSelf)%Z then
    if isalnum c then Beyond else Ret c
  else Fail ErrRegexpSyntax.

(** [parseClassChar]: one character of a class, escaped or not. *)
Definition parseClassChar (t : list Z) : outcome (Z * list Z) :=
  match t with
  | [] => Fail ErrRegexpSyntax                       (* missing closing ] *)
  | c :: t1 =>
    if (c =? cp "\")%Z then
      match t1 with
      | [] => Fail ErrRegexpSyntax                   (* trailing backslash *)
      | c2 :: t2 => r <- escaped c2 ;; Ret (r, t2)
      end
    else Ret (c, t1)
  end.

(** The loop of [parseClass] after the opening bracket and the optional
    negation: single characters and ranges up to the closing bracket, which
    is an ordinary character when it comes [first].  Named classes are not
    modelled. *)
Fixpoint parseClassItems (fuel : nat) (t : list Z) (first : bool)
    (acc : list (Z * Z)) : outcome (list (Z * Z) * list Z) :=
  match fuel with
  | O => Beyond
  | S fuel' =>
    match t with
    | [] => Fail ErrRegexpSyntax                     (* missing closing ] *)
    | c :: t1 =>
      if (c =? cp "]")%Z && negb first then Ret (rev acc, t1)
      else if (c =? cp "[")%Z && (scanner.Peek t1 =? cp ":")%Z then Beyond
      else
        x <- parseClassChar t ;;
        let '(lo, t2) := x in
        match t2 with
        | d :: e :: _ =>
          if (d =? cp "-")%Z && negb (e =? cp "]")%Z then
            y <- parseClassChar (tl t2) ;;
            let '(hi, t3) := y in
            if (hi <? lo)%Z then Fail ErrRegexpSyntax  (* invalid range *)
            else parseClassItems fuel' t3 false ((lo, hi) :: acc)
          else parseClassItems fuel' t2 false ((lo, lo) :: acc)
        | _ => parseClassItems fuel' t2 false ((lo, lo) :: acc)
        end
    end
  end.

Definition parseClass (t : list Z) : outcome (regex * list Z) :=
  let '(negated, t1) :=
    match t with
    | c :: t' => if (c =? cp "^")%Z then (true, t') else (false, t)
    | [] => (false, t)
    end in
  x <- parseClassItems (S (List.length t1)) t1 true [] ;;
  let '(ranges, rest) := x in
  Ret (CharClass negated ranges, rest).

(** The concatenation of the items read, given last first. *)
Definition concat (seq : list regex) : regex :=
  match seq with
  | [] => Empty
  | last :: before => fold_left (fun acc r => Concat r acc) before last
  end.

(** The alternation of the alternatives read, given last first. *)
Definition alternate (alts : list regex) (last : regex) : regex :=
  fold_left (fun acc r => Alternate r acc) alts last.

Definition repetition (op : Z) (r : regex) : regex :=
  if (op =? cp "*")%Z then Star r
  else if (op =? cp "+")%Z then Plus r
  else Quest r.

Definition is_repetition (c : Z) : bool :=
  (c =? cp "*")%Z || (c =? cp "+")%Z || (c =? cp "?")%Z.

(** The parser, up to the end of the text or to the closing parenthesis of
    the group being read, which is left in the rest.  [alts] holds the
    alternatives already closed by a bar, [seq] the items of the current
    one, [repeated] tells whether the item read last was a repetition
    operator: as with the Perl flags, a [?] directly after an operator makes
    it non-greedy, which the set of matched strings does not see, and a
    further operator is an error. *)
Fixpoint parse (fuel : nat) (t : list Z) (alts seq : list regex)
    (repeated : bool) : outcome (regex * list Z) :=
  match fuel with
  | O => Beyond
  | S fuel' =>
    match t with
    | [] => Ret (alternate alts (concat seq), [])
    | c :: t1 =>
      if (c =? cp ")")%Z then Ret (alternate alts (concat seq), t)
      else if (c =? cp "(")%Z then
        if (scanner.Peek t1 =? cp "?")%Z then Beyond   (* flags, named groups *)
        else
          x <- parse fuel' t1 [] [] false ;;
          let '(g, rest) := x in
          match rest with
          | _ :: rest' => parse fuel' rest' alts (g :: seq) false
          | [] => Fail ErrRegexpSyntax                 (* missing closing ) *)
          end
      else if (c =? cp "|")%Z then
        parse fuel' t1 (concat seq :: alts) [] false
      else if is_repetition c then
        if repeated then Fail ErrRegexpSyntax          (* nested repetition *)
        else
          match seq with
          | [] => Fail ErrRegexpSyntax                 (* nothing to repeat *)
          | r :: before =>
            let t2 := match t1 with
                      | q :: t' => if (q =? cp "?")%Z then t' else t1
                      | [] => t1
                      end in
            parse fuel' t2 alts (repetition c r :: before) true
          end
      else if (c =? cp "[")%Z then
        x <- parseClass t1 ;;
        let '(cls, rest) := x in
        parse fuel' rest alts (cls :: seq) false
      else if (c =? cp "\")%Z then
        match t1 with
        | [] => Fail ErrRegexpSyntax                   (* trailing backslash *)
        | c2 :: t2 =>
          r <- escaped c2 ;;
          parse fuel' t2 alts (Lit r :: seq) false
        end
      else if (c =? cp ".")%Z then parse fuel' t1 alts (AnyCharNotNL :: seq) false
      else if (c =? cp "^")%Z then parse fuel' t1 alts (BeginText :: seq) false
      else if (c =? cp "$")%Z then parse fuel' t1 alts (EndText :: seq) false
      else if (c =? cp "{")%Z
                && utf8.between (cp "0") (scanner.Peek t1) (cp "9")
           then Beyond                                 (* counted repetition *)
      else parse fuel' t1 alts (Lit c :: seq) false
    end
  end.

(** A string is valid UTF-8 when encoding its runes gives it back. *)
Definition ValidString (s : string) : bool :=
  String.eqb (String.concat EmptyString (map utf8.EncodeRune (utf8.runes s))) s.

(** [regexp.Compile]. *)
Definition Compile (expr : string) : outcome Regexp :=
  if negb (ValidString expr) then Fail ErrRegexpSyntax
  else
    let t := utf8.runes expr in
    x <- parse (S (List.length t)) t [] [] false ;;
    let '(re, rest) := x in
    match rest with
    | [] => Ret {| expr := expr; prog := re |}
    | _ :: _ => Fail ErrRegexpSyntax                   (* unexpected ) *)
    end.

Definition in_ranges (x : Z) (ranges : list (Z * Z)) : bool :=
  existsb (fun r => utf8.between (fst r) x (snd r)) ranges.

(** The iterations of a starred expression whose body is matched by
    [body]: none, or one that eats at least one rune followed by the
    others.  An iteration that eats nothing adds no match and is cut, so
    there are at most as many as runes, and [n] starts from that number. *)
Fixpoint iterate (body : bool -> list Z -> (bool -> list Z -> bool) -> bool)
    (k : bool -> list Z -> bool) (n : nat) (b : bool) (s : list Z) : bool :=
  k b s ||
  match n with
  | O => false
  | S n' =>
    body b s
      (fun b' s' => (List.length s' <? List.length s)%nat && iterate body k n' b' s')
  end.

(** Backtracking matcher in continuation style: [matches re b s k] tells
    whether [re] matches a prefix of the runes [s] such that [k] accepts
    what follows; [b] tells whether [s] is the whole text (no rune of the
    text lies before it). *)
Fixpoint matches (re : regex) (b : bool) (s : list Z)
    (k : bool -> list Z -> bool) {struct re} : bool :=
  match re with
  | Empty => k b s
  | Lit c =>
    match s with
    | x :: s' => (x =? c)%Z && k false s'
    | [] => false
    end
  | AnyCharNotNL =>
    match s with
    | x :: s' => negb (x =? 10)%Z && k false s'
    | [] => false
    end
  | CharClass negated ranges =>
    match s with
    | x :: s' => xorb negated (in_ranges x ranges) && k false s'
    | [] => false
    end
  | BeginText => b && k b s
  | EndText =>
    match s with
    | [] => k b s
    | _ :: _ => false
    end
  | Concat r1 r2 => matches r1 b s (fun b' s' => matches r2 b' s' k)
  | Alternate r1 r2 => matches r1 b s k || matches r2 b s k
  | Quest r => matches r b s k || k b s
  | Star r => iterate (matches r) k (List.length s) b s
  | Plus r =>
    matches r b s (fun b1 s1 => iterate (matches r) k (List.length s1) b1 s1)
  end.

(** A match starting at the first rune of [s], or further on. *)
Fixpoint search (re : regex) (b : bool) (s : list Z) : bool :=
  matches re b s (fun _ _ => true) ||
  match s with
  | [] => false
  | _ :: s' => search re false s'
  end.

(** [Regexp.MatchString]: the text contains a match of the expression. *)
Definition MatchString (re : Regexp) (s : string) : bool :=
  search (prog re) true (utf8.runes s).

(** The expression matches the text from its first rune to its last. *)
Definition MatchWhole (re : Regexp) (s : string) : bool :=
  matches (prog re) true (utf8.runes s)
    (fun _ rest => match rest with [] => true | _ :: _ => false end).

End regexp.

(** ** Slices and indices

    Go panics on an index or a slice bound out of range. *)

(** [s[lo:hi]] *)
Definition slice (s : string) (lo hi : Z) : outcome string :=
  if (0 <=? lo)%Z && (lo <=? hi)%Z && (hi <=? Z.of_nat (String.length s))%Z
  then Ret (substring (Z.to_nat lo) (Z.to_nat (hi - lo)) s)
  else Panics.

(** [s[i]] *)
Definition index (s : string) (i : Z) : outcome ascii :=
  if (0 <=? i)%Z then
    match String.get (Z.to_nat i) s with
    | Some c => Ret c
    | None => Panics
    end
  else Panics.

Definition len (s : string) : Z := Z.of_nat (String.length s).

(** [l[i] = v] on a slice, for an index in range. *)
Fixpoint store {A : Type} (l : list A) (i : nat) (v : A) : list A :=
  match l, i with
  | [], _ => []
  | _ :: t, O => v :: t
  | h :: t, S j => h :: store t j v
  end.

(** ** patternmatcher.go *)

Definition PathSeparator : ascii := filepath.Separator.   (* os.PathSeparator *)

(** The conversion of an integer to the type [byte]. *)
Definition to_byte (z : Z) : Z := (z mod 256)%Z.

(** [escapeBytes], as [init] fills it.  The constant [1] that is shifted has
    the type [byte] of the array element, so the shift is taken modulo 256. *)
Definition escapeBytes : list Z :=
  fold_left
    (fun tbl b =>
       let i := Z.to_nat (Z.rem b 8) in
       store tbl i (Z.lor (nth i tbl 0%Z) (to_byte (Z.shiftl 1 (Z.quot b 8)))))
    (map cp (list_ascii_of_string ".+()|{}$"))
    (repeat 0%Z 8).

(** [shouldEscape]; it is called on runes read by the scanner, which are
    not negative. *)
Definition shouldEscape (b : Z) : bool :=
  (b <? utf8.RuneSelf)%Z &&
  negb (Z.land (nth (Z.to_nat (Z.rem b 8)) escapeBytes 0%Z)
               (to_byte (Z.shiftl 1 (Z.quot b 8))) =? 0)%Z.

Inductive MatchType : Type :=
| UnknownMatch
| ExactMatch
| PrefixMatch
| SuffixMatch
| RegexpMatch.

Definition MatchType_eqb (a b : MatchType) : bool :=
  match a, b with
  | UnknownMatch, UnknownMatch | ExactMatch, ExactMatch
  | PrefixMatch, PrefixMatch | SuffixMatch, SuffixMatch
  | RegexpMatch, RegexpMatch => true
  | _, _ => false
  end.

(** [Pattern]; the field [MatchType] is [Kind] here, and a nil [Regexp] is
    [None]. *)
Record Pattern : Type := {
  Kind : MatchType;
  CleanedPattern : string;
  Dirs : list string;
  Regexp : option regexp.Regexp;
  Exclusion : bool
}.

Definition pathSeparator : string := String PathSeparator EmptyString.

(** [pathSeparator] is not the backslash, so it is its own escaped form. *)
Definition escapedPathSeparator : string := pathSeparator.

(** The loop of [Compile]: [scan] is the scanner, [i] counts the
    iterations, [regStr] and [matchType] are the variables of these names.
    An iteration reads one rune with [Next], and more where the code calls
    [Next] again: the second star of a double star, the separator after it,
    the rune after a backslash. *)
Fixpoint Compile_loop (scan : scanner.Scanner) (i : nat) (regStr : string)
    (matchType : MatchType) {struct scan} : string * MatchType :=
  match scan with
  | [] => (regStr, matchType)                 (* scan.Peek() == scanner.EOF *)
  | ch :: scan1 =>
    if (ch =? cp "*")%Z then
      let single :=
        (* is "*" so map it to anything but "/" *)
        Compile_loop scan1 (S i)
          (regStr ++ "[^" ++ escapedPathSeparator ++ "]*") RegexpMatch in
      match scan1 with
      | [] => single
      | ch2 :: scan2 =>
        if (ch2 =? cp "*")%Z then
          (* is some flavor of "**"; treat **/ as ** so eat the "/" *)
          let scan3 :=
            match scan2 with
            | ch3 :: rest =>
              if (ch3 =? cp PathSeparator)%Z then rest else scan2
            | [] => scan2
            end in
          let '(regStr, matchType) :=
            match scan3 with
            | [] =>
              (* is "**EOF" *)
              if MatchType_eqb matchType ExactMatch
              then (regStr, PrefixMatch)
              else (regStr ++ ".*", RegexpMatch)
            | _ :: _ =>
              (* is "**" *)
              (regStr ++ "(.*" ++ escapedPathSeparator ++ ")?", RegexpMatch)
            end in
          let matchType := if (i =? 0)%nat then SuffixMatch else matchType in
          Compile_loop scan3 (S i) regStr matchType
        else single
      end
    else if (ch =? cp "?")%Z then
      (* "?" is any char except "/" *)
      Compile_loop scan1 (S i)
        (regStr ++ "[^" ++ escapedPathSeparator ++ "]") RegexpMatch
    else if shouldEscape ch then
      Compile_loop scan1 (S i) (regStr ++ "\" ++ utf8.EncodeRune ch) matchType
    else if (ch =? cp "\")%Z then
      (* escape next char; a trailing \ is left alone *)
      match scan1 with
      | ch2 :: scan2 =>
        Compile_loop scan2 (S i) (regStr ++ "\" ++ utf8.EncodeRune ch2)
          RegexpMatch
      | [] => Compile_loop scan1 (S i) (regStr ++ "\") matchType
      end
    else if (ch =? cp "[")%Z || (ch =? cp "]")%Z then
      Compile_loop scan1 (S i) (regStr ++ utf8.EncodeRune ch) RegexpMatch
    else
      Compile_loop scan1 (S i) (regStr ++ utf8.EncodeRune ch) matchType
  end.

(** The expression [Compile] builds for [pattern], before the closing
    anchor is added, and the match type reached at the end of the scan. *)
Definition Compile_scan (pattern : string) : string * MatchType :=
  Compile_loop (scanner.Init pattern) 0 "^" ExactMatch.

(** [Compile]: the match type and the compiled expression, [None] for nil.
    An error of [regexp.Compile] is returned with [UnknownMatch]. *)
Definition Compile (pattern : string)
  : outcome (MatchType * option regexp.Regexp) :=
  let '(regStr, matchType) := Compile_scan pattern in
  if negb (MatchType_eqb matchType RegexpMatch) then Ret (matchType, None)
  else
    let regStr := regStr ++ "$" in
    re <- regexp.Compile regStr ;;
    Ret (matchType, Some re).

(** [NewPattern]. *)
Definition NewPattern (pattern : string) : outcome Pattern :=
  c0 <- index pattern 0 ;;
  x <- (if Ascii.eqb c0 "!"%char then
          if (len pattern =? 1)%Z then Fail ErrIllegalExclusion
          else p <- slice pattern 1 (len pattern) ;; Ret (true, p)
        else Ret (false, pattern)) ;;
  let '(exclusion, pattern) := x in
  y <- Compile pattern ;;
  let '(matchType, re) := y in
  Ret {| Kind := matchType;
         CleanedPattern := pattern;
         Dirs := strings.Split pattern PathSeparator;
         Regexp := re;
         Exclusion := exclusion |}.

(** [Pattern.Match]. *)
Definition Match (p : Pattern) (path : string) : outcome bool :=
  match Kind p with
  | ExactMatch => Ret (String.eqb path (CleanedPattern p))
  | PrefixMatch =>
    (* strip trailing ** *)
    prefix <- slice (CleanedPattern p) 0 (len (CleanedPattern p) - 2) ;;
    Ret (strings.HasPrefix path prefix)
  | SuffixMatch =>
    (* strip leading ** *)
    suffix <- slice (CleanedPattern p) 2 (len (CleanedPattern p)) ;;
    if strings.HasSuffix path suffix then Ret true
    else
      (* **/foo matches "foo" *)
      c0 <- index suffix 0 ;;
      if Ascii.eqb c0 PathSeparator then
        rest <- slice suffix 1 (len suffix) ;;
        Ret (String.eqb path rest)
      else Ret false
  | RegexpMatch =>
    match Regexp p with
    | Some re => Ret (regexp.MatchString re path)
    | None => Panics
    end
  | UnknownMatch => Ret false
  end.

(** The scan of the parent directories in both evaluators:
    [for i := range parentPathDirs], from index [i] on, [n] indices left;
    the first prefix that matches ends it. *)
Fixpoint scanParents (pattern : Pattern) (parentPathDirs : list string)
    (i n : nat) : outcome bool :=
  match n with
  | O => Ret false
  | S n' =>
    m <- Match pattern
           (strings.Join (firstn (i + 1) parentPathDirs) pathSeparator) ;;
    if m then Ret true else scanParents pattern parentPathDirs (S i) n'
  end.

(** The evaluation of one pattern in [MatchesOrParentMatches]: the match
    predicate on the file and, when it fails and the file has a parent
    directory, the scan of the parent directories. *)
Definition matchOrParents (pattern : Pattern) (file parentPath : string)
    (parentPathDirs : list string) : outcome bool :=
  m <- Match pattern file ;;
  if negb m && negb (String.eqb parentPath ".")
  then scanParents pattern parentPathDirs 0 (List.length parentPathDirs)
  else Ret m.

(** The loop of [MatchesOrParentMatches] over the patterns left. *)
Fixpoint MatchesOrParentMatches_loop (patterns : list Pattern)
    (file parentPath : string) (parentPathDirs : list string)
    (matched : bool) : outcome bool :=
  match patterns with
  | [] => Ret matched
  | pattern :: rest =>
    if negb (Bool.eqb (Exclusion pattern) matched) then
      (* continue *)
      MatchesOrParentMatches_loop rest file parentPath parentPathDirs matched
    else
      m <- matchOrParents pattern file parentPath parentPathDirs ;;
      let matched := if m then negb (Exclusion pattern) else matched in
      MatchesOrParentMatches_loop rest file parentPath parentPathDirs matched
  end.

(** [MatchesOrParentMatches]; the error it returns is always nil. *)
Definition MatchesOrParentMatches (patterns : list Pattern) (file : string)
  : outcome bool :=
  let file := filepath.Clean file in
  if String.eqb file "." then
    (* Don't let them exclude everything, kind of silly. *)
    Ret false
  else
    let file := filepath.FromSlash file in
    let parentPath := filepath.Dir file in
    let parentPathDirs := strings.Split parentPath PathSeparator in
    MatchesOrParentMatches_loop patterns file parentPath parentPathDirs false.

(** [parentMatched[i]] *)
Definition at_index (l : list bool) (i : nat) : outcome bool :=
  match nth_error l i with
  | Some b => Ret b
  | None => Panics
  end.

(** The loop of [MatchesUsingParentResults] over the patterns left, [i] the
    index of the first of them. *)
Fixpoint MatchesUsingParentResults_loop (patterns : list Pattern) (i : nat)
    (file : string) (parentMatched : list bool) (matched : bool)
    (matchInfo : list bool) : outcome (bool * list bool) :=
  match patterns with
  | [] => Ret (matched, matchInfo)
  | pattern :: rest =>
    (* If the parent matched this pattern, we don't need to recheck. *)
    m <- (if negb (List.length parentMatched =? 0)%nat
          then at_index parentMatched i else Ret false) ;;
    if negb m && negb (Bool.eqb (Exclusion pattern) matched) then
      (* continue *)
      MatchesUsingParentResults_loop rest (S i) file parentMatched matched
        matchInfo
    else
      m <- (if negb m then
              m <- Match pattern file ;;
              if negb m && (List.length parentMatched =? 0)%nat then
                let parentPath := filepath.Dir file in
                if negb (String.eqb parentPath ".") then
                  let parentPathDirs := strings.Split parentPath PathSeparator in
                  scanParents pattern parentPathDirs 0
                    (List.length parentPathDirs)
                else Ret m
              else Ret m
            else Ret m) ;;
      let matchInfo := store matchInfo i m in
      let matched := if m then negb (Exclusion pattern) else matched in
      MatchesUsingParentResults_loop rest (S i) file parentMatched matched
        matchInfo
  end.

(** [MatchesUsingParentResults]: the verdict and the match information. *)
Definition MatchesUsingParentResults (patterns : list Pattern) (file : string)
    (parentMatched : list bool) : outcome (bool * list bool) :=
  if negb (List.length parentMatched =? 0)%nat
     && negb (List.length parentMatched =? List.length patterns)%nat
  then Fail ErrWrongParentMatched
  else
    let file := filepath.FromSlash file in
    MatchesUsingParentResults_loop patterns 0 file parentMatched false
      (repeat false (List.length patterns)).

(** [NewPatterns]. *)
Fixpoint NewPatterns (patterns : list string) : outcome (list Pattern) :=
  match patterns with
  | [] => Ret []
  | p :: rest =>
    (* Eliminate leading and trailing whitespace. *)
    let p := strings.TrimSpace p in
    match p with
    | EmptyString => NewPatterns rest               (* continue *)
    | String _ _ =>
      let p := filepath.Clean p in
      (* filepath.Match is called for its error state *)
      matched <- filepath.Match p "." ;;
      newp <- NewPattern p ;;
      matchPatters <- NewPatterns rest ;;
      Ret (newp :: matchPatters)
    end
  end.

(** ** The threaded run of the tests (patternmatcher_test.go)

    The closure [check] of the subtest [MatchesUsingParentResults]
    evaluates the prefixes of the parent directory of [text] from the first
    segment down, each with the match information returned for the prefix
    before it, and then [text] itself with the match information of its
    parent.  It drops the errors: after an error the match information is
    the nil slice and the verdict is [false]. *)

Fixpoint threadParents (patterns : list Pattern) (parentPathDirs : list string)
    (i n : nat) (parentMatchInfo : list bool) : outcome (list bool) :=
  match n with
  | O => Ret parentMatchInfo
  | S n' =>
    match MatchesUsingParentResults patterns
            (strings.Join (firstn (i + 1) parentPathDirs) "/")
            parentMatchInfo with
    | Ret (_, info) => threadParents patterns parentPathDirs (S i) n' info
    | Fail _ => threadParents patterns parentPathDirs (S i) n' []
    | Panics => Panics
    | Beyond => Beyond
    end
  end.

Definition check (patterns : list Pattern) (text : string) : outcome bool :=
  let parentPath := filepath.Dir (filepath.FromSlash text) in
  let parentPathDirs := strings.Split parentPath PathSeparator in
  parentMatchInfo <-
    (if negb (String.eqb parentPath ".")
     then threadParents patterns parentPathDirs 0 (List.length parentPathDirs) []
     else Ret []) ;;
  match MatchesUsingParentResults patterns text parentMatchInfo with
  | Ret (res, _) => Ret res
  | Fail _ => Ret false
  | Panics => Panics
  | Beyond => Beyond
  end.

(** The verdict of [MatchesUsingParentResults], without the match
    information. *)
Definition verdict (r : outcome (bool * list bool)) : outcome bool :=
  x <- r ;; Ret (fst x).

(** The match type [Compile] gives a pattern. *)
Definition classify (pattern : string) : outcome MatchType :=
  x <- Compile pattern ;; Ret (fst x).

(** The full evaluator on rule strings, as the tests call it. *)
Definition matchesOrParentMatches (rules : list string) (file : string)
  : outcome bool :=
  patterns <- NewPatterns rules ;; MatchesOrParentMatches patterns file.

(** ** Patterns used in the statements *)

(** A pattern whose [Match] panics on every path: a prefix pattern too
    short to hold the double star.  [NewPattern] never builds it; it serves
    to observe whether an evaluator calls [Match]. *)
Definition probe (exclusion : bool) : Pattern :=
  {| Kind := PrefixMatch; CleanedPattern := EmptyString; Dirs := [];
     Regexp := None; Exclusion := exclusion |}.

(** The rule that [NewPattern] builds for "a.go". *)
Definition rule_a_go : Pattern :=
  {| Kind := ExactMatch; CleanedPattern := "a.go"; Dirs := ["a.go"];
     Regexp := None; Exclusion := false |}.

(** The rule that [NewPattern] builds for "docs". *)
Definition rule_docs : Pattern :=
  {| Kind := ExactMatch; CleanedPattern := "docs"; Dirs := ["docs"];
     Regexp := None; Exclusion := false |}.

(** The class of the runes other than the separator, and the rule that
    [NewPattern] builds for "*". *)
Definition not_separator : regexp.regex :=
  regexp.CharClass true [(cp PathSeparator, cp PathSeparator)].

Definition star_expr : regexp.Regexp :=
  {| regexp.expr := "^[^/]*$";
     regexp.prog :=
       regexp.Concat regexp.BeginText
         (regexp.Concat (regexp.Star not_separator) regexp.EndText) |}.

Definition rule_star : Pattern :=
  {| Kind := RegexpMatch; CleanedPattern := "*"; Dirs := ["*"];
     Regexp := Some star_expr; Exclusion := false |}.

(** The runes of the path hold no separator. *)
Definition no_separator (path : string) : bool :=
  forallb (fun x => negb (x =? cp PathSeparator)%Z) (utf8.runes path).

(** A byte order mark, the UTF-8 encoding of U+FEFF. *)
Definition utf8bom : string :=
  String (byte_of 239) (String (byte_of 187) (String (byte_of 191) EmptyString)).

(** ** The evaluators on rules whose [Match] returns *)

(** A pattern as [NewPattern] builds it from the scan of its cleaned
    pattern: its match type is that of the scan, and it has an expression
    when the match type is Regexp.  The expression itself plays no part, so
    the patterns whose expression lies outside the model of [regexp] are
    covered too. *)
Definition scanned (p : Pattern) : Prop :=
  Kind p = snd (Compile_scan (CleanedPattern p))
  /\ (Kind p = RegexpMatch -> exists re, Regexp p = Some re).

(** The answer of [Match] when it returns. *)
Definition matchb (p : Pattern) (path : string) : bool :=
  match Match p path with
  | Ret b => b
  | _ => false
  end.

(** [Match] returns on every path. *)
Definition safe (p : Pattern) : Prop :=
  forall path, Match p path = Ret (matchb p path).

(** The prefix of [i + 1] segments of the parent directory. *)
Definition prefix_at (parentPathDirs : list string) (i : nat) : string :=
  strings.Join (firstn (i + 1) parentPathDirs) pathSeparator.

(** Some rule matches the path. *)
Definition some_rule_matches (patterns : list Pattern) (path : string) : bool :=
  existsb (fun p => matchb p path) patterns.

(** One run of the loop of [MatchesUsingParentResults] over inclusion rules
    whose [Match] returns: [bits] is what the parent state gives for each
    rule; the result is the verdict and the match information of the
    rules. *)
Fixpoint level (patterns : list Pattern) (bits : list bool) (file : string)
    (matched : bool) : bool * list bool :=
  match patterns, bits with
  | p :: rest, b :: bits' =>
    let bit := b || (negb matched && matchb p file) in
    let '(v, l) := level rest bits' file (matched || bit) in
    (v, bit :: l)
  | _, _ => (matched, [])
  end.

Definition inclusions (patterns : list Pattern) : bool :=
  forallb (fun p => negb (Exclusion p)) patterns.

(** The rule matches the file or one of its parent directories. *)
Definition hit (file parentPath : string) (dirs : list string) (p : Pattern)
  : bool :=
  matchb p file
  || (negb (String.eqb parentPath ".")
      && existsb (fun j => matchb p (prefix_at dirs j)) (seq 0 (List.length dirs))).

(** ** The tables of the tests (patternmatcher_test.go)

    [tests] and [multiPatternTests] of [TestMatches], with the row that the
    test adds off Windows, and [matchTests] of [TestMatch], where [None]
    stands for the expected error [filepath.ErrBadPattern]. *)

Definition tests : list (string * string * bool) :=
  [("**", "file", true); ("**", "file/", true); ("**/", "file", true);
   ("**/", "file/", true); ("**", "/", true); ("**/", "/", true);
   ("**", "dir/file", true); ("**/", "dir/file", true);
   ("**", "dir/file/", true); ("**/", "dir/file/", true);
   ("**/**", "dir/file", true); ("**/**", "dir/file/", true);
   ("dir/**", "dir/file", true); ("dir/**", "dir/file/", true);
   ("dir/**", "dir/dir2/file", true); ("dir/**", "dir/dir2/file/", true);
   ("**/dir", "dir", true); ("**/dir", "dir/file", true);
   ("**/dir2/*", "dir/dir2/file", true); ("**/dir2/*", "dir/dir2/file/", true);
   ("**/dir2/**", "dir/dir2/dir3/file", true);
   ("**/dir2/**", "dir/dir2/dir3/file/", true);
   ("**file", "file", true); ("**file", "dir/file", true);
   ("**/file", "dir/file", true); ("**file", "dir/dir/file", true);
   ("**/file", "dir/dir/file", true); ("**/file*", "dir/dir/file", true);
   ("**/file*", "dir/dir/file.txt", true);
   ("**/file*txt", "dir/dir/file.txt", true);
   ("**/file*.txt", "dir/dir/file.txt", true);
   ("**/file*.txt*", "dir/dir/file.txt", true);
   ("**/**/*.txt", "dir/dir/file.txt", true);
   ("**/**/*.txt2", "dir/dir/file.txt", false);
   ("**/*.txt", "file.txt", true); ("**/**/*.txt", "file.txt", true);
   ("a**/*.txt", "a/file.txt", true); ("a**/*.txt", "a/dir/file.txt", true);
   ("a**/*.txt", "a/dir/dir/file.txt", true);
   ("a/*.txt", "a/dir/file.txt", false); ("a/*.txt", "a/file.txt", true);
   ("a/*.txt**", "a/file.txt", true); ("a[b-d]e", "ae", false);
   ("a[b-d]e", "ace", true); ("a[b-d]e", "aae", false);
   ("a[^b-d]e", "aze", true); (".*", ".foo", true); (".*", "foo", false);
   ("abc.def", "abcdef", false); ("abc.def", "abc.def", true);
   ("abc.def", "abcZdef", false); ("abc?def", "abcZdef", true);
   ("abc?def", "abcdef", false); ("a\\", "a\", true);
   ("**/foo/bar", "foo/bar", true); ("**/foo/bar", "dir/foo/bar", true);
   ("**/foo/bar", "dir/dir2/foo/bar", true); ("abc/**", "abc", false);
   ("abc/**", "abc/def", true); ("abc/**", "abc/def/ghi", true);
   ("**/.foo", ".foo", true); ("**/.foo", "bar.foo", false);
   ("a(b)c/def", "a(b)c/def", true); ("a(b)c/def", "a(b)c/xyz", false);
   ("a.|)$(}+{bc", "a.|)$(}+{bc", true);
   ("dist/proxy.py-2.4.0rc3.dev36+g08acad9-py3-none-any.whl",
    "dist/proxy.py-2.4.0rc3.dev36+g08acad9-py3-none-any.whl", true);
   ("dist/*.whl", "dist/proxy.py-2.4.0rc3.dev36+g08acad9-py3-none-any.whl", true);
   ("a\*b", "a*b", true)].

Definition multiPatternTests : list (list string * string * bool) :=
  [(["**"; "!util/docker/web"], "util/docker/web/foo", false);
   (["**"; "!util/docker/web"; "util/docker/web/foo"], "util/docker/web/foo", true);
   (["**"; "!dist/proxy.py-2.4.0rc3.dev36+g08acad9-py3-none-any.whl"],
    "dist/proxy.py-2.4.0rc3.dev36+g08acad9-py3-none-any.whl", false);
   (["**"; "!dist/*.whl"],
    "dist/proxy.py-2.4.0rc3.dev36+g08acad9-py3-none-any.whl", false)].

Definition matchTests : list (string * string * option bool) :=
  [("abc", "abc", Some true); ("*", "abc", Some true); ("*c", "abc", Some true);
   ("a*", "a", Some true); ("a*", "abc", Some true); ("a*", "ab/c", Some true);
   ("a*/b", "abc/b", Some true); ("a*/b", "a/c/b", Some false);
   ("a*b*c*d*e*/f", "axbxcxdxe/f", Some true);
   ("a*b*c*d*e*/f", "axbxcxdxexxx/f", Some true);
   ("a*b*c*d*e*/f", "axbxcxdxe/xxx/f", Some false);
   ("a*b*c*d*e*/f", "axbxcxdxexxx/fff", Some false);
   ("a*b?c*x", "abxbbxdbxebxczzx", Some true);
   ("a*b?c*x", "abxbbxdbxebxczzy", Some false);
   ("ab[c]", "abc", Some true); ("ab[b-d]", "abc", Some true);
   ("ab[e-g]", "abc", Some false); ("ab[^c]", "abc", Some false);
   ("ab[^b-d]", "abc", Some false); ("ab[^e-g]", "abc", Some true);
   ("a\*b", "a*b", Some true); ("a\*b", "ab", Some false);
   ("a?b", "a☺b", Some true); ("a[^a]b", "a☺b", Some true);
   ("a???b", "a☺b", Some false); ("a[^a][^a][^a]b", "a☺b", Some false);
   ("[a-ζ]*", "α", Some true); ("*[a-ζ]", "A", Some false);
   ("a?b", "a/b", Some false); ("a*b", "a/b", Some false);
   ("[\]a]", "]", Some true); ("[\-]", "-", Some true);
   ("[x\-]", "x", Some true); ("[x\-]", "-", Some true);
   ("[x\-]", "z", Some false); ("[\-x]", "x", Some true);
   ("[\-x]", "-", Some true); ("[\-x]", "a", Some false);
   ("[]a]", "]", None); ("[-]", "-", None); ("[x-]", "x", None);
   ("[x-]", "-", None); ("[x-]", "z", None); ("[-x]", "x", None);
   ("[-x]", "-", None); ("[-x]", "a", None); ("\", "a", None);
   ("[a-b-c]", "a", None); ("[", "a", None); ("[^", "a", None);
   ("[^bc", "a", None); ("a[", "a", None); ("a[", "ab", None);
   ("*x", "xxx", Some true)].

(** The call returns the boolean. *)
Definition returns (r : outcome bool) (b : bool) : bool :=
  match r with
  | Ret x => Bool.eqb x b
  | _ => false
  end.

(** The call returns the boolean expected, or an error when none is. *)
Definition returns_or_fails (r : outcome bool) (expected : option bool) : bool :=
  match r, expected with
  | Ret x, Some b => Bool.eqb x b
  | Fail _, None => true
  | _, _ => false
  end.

(** The three subtests of [TestMatches] on one row: the full evaluator, the
    incremental evaluator with threaded parent state, and the incremental
    evaluator without parent state. *)
Definition row_passes (rules : list string) (text : string) (pass : bool)
  : bool :=
  match NewPatterns rules with
  | Ret patterns =>
    returns (MatchesOrParentMatches patterns text) pass
    && returns (check patterns text) pass
    && returns (verdict (MatchesUsingParentResults patterns text [])) pass
  | _ => false
  end.

(** ** Definitions for the further properties *)

(** The runes that [Compile] appends without a change of the match type:
    all but the star, the question mark, the backslash and the brackets. *)
Definition plain (ch : Z) : bool :=
  negb ((ch =? cp "*")%Z || (ch =? cp "?")%Z || (ch =? cp "\")%Z
        || (ch =? cp "[")%Z || (ch =? cp "]")%Z).

(** The scanner after a double star: a separator that follows is eaten. *)
Definition eatSeparator (scan : scanner.Scanner) : scanner.Scanner :=
  match scan with
  | ch :: rest => if (ch =? cp PathSeparator)%Z then rest else scan
  | [] => scan
  end.

(** An outcome of the compilation of an expression: no panic, and no error
    but a syntax error. *)
Definition benign {A : Type} (x : outcome A) : Prop :=
  match x with
  | Panics => False
  | Fail e => e = ErrRegexpSyntax
  | _ => True
  end.

(** Last match wins: the verdict that the last rule that hits gives, an
    inclusion [true] and an exclusion [false]; [false] when no rule hits. *)
Definition decision (hits : Pattern -> bool) (patterns : list Pattern) : bool :=
  match find hits (rev patterns) with
  | Some rule => negb (Exclusion rule)
  | None => false
  end.

(** The verdict after one more rule, without the skip. *)
Definition decide (hits : Pattern -> bool) (matched : bool) (rule : Pattern)
  : bool :=
  if hits rule then negb (Exclusion rule) else matched.

(** One run of the loop of [MatchesUsingParentResults] with the state of a
    parent, over rules whose [Match] returns: the entry of a rule is what
    the parent gives for it or, when the rule is not skipped, what [Match]
    gives on the file. *)
Fixpoint levelAll (patterns : list Pattern) (bits : list bool) (file : string)
    (matched : bool) : bool * list bool :=
  match patterns, bits with
  | p :: rest, b :: bits' =>
    let bit := b || (Bool.eqb (Exclusion p) matched && matchb p file) in
    let '(v, l) :=
      levelAll rest bits' file (if bit then negb (Exclusion p) else matched) in
    (v, bit :: l)
  | _, _ => (matched, [])
  end.

(** The rule hits with the state of a parent: the parent matched it, or it
    matches the file. *)
Definition hitWithParent (file : string) (pb : Pattern * bool) : bool :=
  snd pb || matchb (fst pb) file.

(** The runes that make a pattern one for the matcher of expressions: the
    question mark, the two brackets and a backslash with a rune behind
    it. *)
Definition upgrades (ch : Z) (after : list Z) : bool :=
  (ch =? cp "?")%Z || (ch =? cp "[")%Z || (ch =? cp "]")%Z
  || ((ch =? cp "\")%Z && negb (List.length after =? 0)%nat).

(** The call of [filepath.Match] returns a boolean or [ErrBadPattern]. *)
Definition decided {A : Type} (x : outcome A) : Prop :=
  x = Fail ErrBadPattern \/ exists a, x = Ret a.

(** * Properties *)

Arguments Match : simpl never.
Arguments filepath.Clean : simpl never.
Arguments filepath.Dir : simpl never.
Arguments strings.Split : simpl never.
Arguments strings.TrimSpace : simpl never.
Arguments filepath.Match : simpl never.

Example runes_smiley :
  utf8.runes (String (byte_of 97) (String (byte_of 226) (String (byte_of 152)
     (String (byte_of 186) (String (byte_of 98) EmptyString)))))
  = [97; 9786; 98]%Z.
Proof. reflexivity. Qed.

Example Clean_samples :
  filepath.Clean "a//b/./c/.." = "a/b" /\ filepath.Clean "a/.." = "."
  /\ filepath.Clean "/../a" = "/a" /\ filepath.Clean "../../a/.." = "../.."
  /\ filepath.Dir "util/docker/web/foo" = "util/docker/web"
  /\ filepath.Dir "foo" = "." /\ filepath.Dir "/foo" = "/".
Proof. repeat split; reflexivity. Qed.

(** [TrimSpace] trims the white space of Unicode too, and leaves other
    bytes that are not ASCII alone: a no-break space (C2 A0) and the
    ideographic space (E3 80 80) are trimmed, the zero-width space (E2 80
    8B) and an invalid byte are not. *)
Example TrimSpace_samples :
  strings.TrimSpace "  a b  " = "a b"
  /\ strings.TrimSpace " café " = "café"
  /\ strings.TrimSpace
       (String (byte_of 194) (String (byte_of 160)
          ("a" ++ String (byte_of 194) (String (byte_of 160) " "))))
     = "a"
  /\ strings.TrimSpace
       (String (byte_of 227) (String (byte_of 128) (String (byte_of 128) "a")))
     = "a"
  /\ strings.TrimSpace
       (String (byte_of 226) (String (byte_of 128) (String (byte_of 139) "a ")))
     = String (byte_of 226) (String (byte_of 128) (String (byte_of 139) "a"))
  /\ strings.TrimSpace (" " ++ String (byte_of 255) " ")
     = String (byte_of 255) EmptyString
  /\ strings.TrimSpace "   " = EmptyString.
Proof. repeat split; vm_compute; reflexivity. Qed.

(** [filepath.Match] on rows of the table of its own tests, and its error
    state against the name ".": a malformed chunk is reported when it is
    reached, not when a chunk before it already fails to match. *)
Example filepath_Match_samples :
  map (fun t => filepath.Match (fst t) (snd t))
    [("a*", "ab/c"); ("a*/b", "abc/b"); ("a*b?c*x", "abxbbxdbxebxczzx");
     ("ab[^e-g]", "abc"); ("a?b", "a☺b"); ("[a-ζ]*", "α"); ("a[", "x");
     ("[a-b-c]", "a"); ("*x", "xxx")]
  = [Ret false; Ret true; Ret true; Ret true; Ret true; Ret true;
     Fail ErrBadPattern; Fail ErrBadPattern; Ret true]
  /\ map (fun p => filepath.Match p ".")
       ["a*[]a]"; "a*["; "a*\"; "*a*[a-]"; ".*["; "*["; "[]a]"; "a["; "*\"]
     = [Ret false; Ret false; Ret false; Ret false; Fail ErrBadPattern;
        Fail ErrBadPattern; Fail ErrBadPattern; Fail ErrBadPattern;
        Fail ErrBadPattern].
Proof. split; vm_compute; reflexivity. Qed.

(** The compiler agrees with the table [compileTests] of the tests on the
    expression compiled. *)
Example Compile_expressions :
  map (fun p => x <- Compile p ;;
                Ret (fst x, match snd x with
                            | Some re => regexp.expr re
                            | None => EmptyString
                            end))
      ["*"; "a*/b"; "**/**"; "**/dir2/*"; "**/**/*.txt"; ".*"; "abc?def"]
  = [Ret (RegexpMatch, "^[^/]*$"); Ret (RegexpMatch, "^a[^/]*/b$");
     Ret (RegexpMatch, "^(.*/)?.*$"); Ret (RegexpMatch, "^(.*/)?dir2/[^/]*$");
     Ret (RegexpMatch, "^(.*/)?(.*/)?[^/]*\.txt$");
     Ret (RegexpMatch, "^\.[^/]*$"); Ret (RegexpMatch, "^abc[^/]def$")].
Proof. vm_compute. reflexivity. Qed.

(** The model passes the three subtests of [TestMatches] on every row of
    the tables of the tests, and gives every row of [matchTests] the verdict
    or the error the table expects. *)
Example TestMatches_passes :
  forallb (fun t => row_passes [fst (fst t)] (snd (fst t)) (snd t)) tests = true
  /\ forallb (fun t => row_passes (fst (fst t)) (snd (fst t)) (snd t))
       multiPatternTests = true.
Proof. split; vm_compute; reflexivity. Qed.

Example matchTests_pass :
  forallb (fun t => returns_or_fails
                      (matchesOrParentMatches [fst (fst t)] (snd (fst t)))
                      (snd t)) matchTests = true.
Proof. vm_compute. reflexivity. Qed.

(** C1: last match wins and negation is order-sensitive in the full
    evaluator: the rules ["*.go", "!fileutils.go"] do not match
    "fileutils.go", the rules ["!fileutils.go", "*.go"] match it. *)
Theorem negation_order_sensitive :
  matchesOrParentMatches ["*.go"; "!fileutils.go"] "fileutils.go" = Ret false
  /\ matchesOrParentMatches ["!fileutils.go"; "*.go"] "fileutils.go" = Ret true.
Proof. split; vm_compute; reflexivity. Qed.

(** C8: the classification of the compiler: "*" is Regexp, "abc.def" is
    Exact, "dir/**" is Prefix, "**/dir" is Suffix, and "**/dir2/*" is
    Regexp: its leading double star first forces Suffix (the match type
    after the scan of "**/dir2/"), which the single star then overrides. *)
Theorem classification :
  classify "*" = Ret RegexpMatch
  /\ classify "abc.def" = Ret ExactMatch
  /\ classify "dir/**" = Ret PrefixMatch
  /\ classify "**/dir" = Ret SuffixMatch
  /\ classify "**/dir2/*" = Ret RegexpMatch
  /\ snd (Compile_scan "**/dir2/") = SuffixMatch.
Proof. repeat split; vm_compute; reflexivity. Qed.

(** ** The full evaluator *)

Lemma probe_panics (exclusion : bool) (path : string) :
  Match (probe exclusion) path = Panics.
Proof. reflexivity. Qed.

Lemma bind_assoc {A B C : Type} (x : outcome A) (f : A -> outcome B)
    (g : B -> outcome C) :
  (b <- (a <- x ;; f a) ;; g b) = (a <- x ;; b <- f a ;; g b).
Proof. destruct x; reflexivity. Qed.

Lemma bind_Ret_r {A : Type} (x : outcome A) : (a <- x ;; Ret a) = x.
Proof. destruct x; reflexivity. Qed.

(** The loop over a list of patterns in two parts is the loop over the
    first part followed by the loop over the second. *)
Lemma MatchesOrParentMatches_loop_app (before after : list Pattern)
    (file parentPath : string) (dirs : list string) (matched : bool) :
  MatchesOrParentMatches_loop (before ++ after)%list file parentPath dirs matched
  = (m <- MatchesOrParentMatches_loop before file parentPath dirs matched ;;
     MatchesOrParentMatches_loop after file parentPath dirs m).
Proof.
  revert matched. induction before as [|p before IH]; intros matched; simpl.
  - reflexivity.
  - destruct (negb (Bool.eqb (Exclusion p) matched)).
    + apply IH.
    + rewrite bind_assoc.
      destruct (matchOrParents p file parentPath dirs); simpl; auto.
  Qed.

(** C6: the current-directory guard of the full evaluator: a path whose
    cleaned form is "." is not matched, whatever the rules. *)
Theorem current_directory_never_matches (patterns : list Pattern)
    (file : string) :
  filepath.Clean file = "." -> MatchesOrParentMatches patterns file = Ret false.
Proof.
  intros H. unfold MatchesOrParentMatches. rewrite H. reflexivity.
Qed.

Lemma current_directory_never_matches_witness :
  exists patterns,
    NewPatterns ["*"] = Ret patterns
    /\ filepath.Clean "a/../." = "."
    /\ MatchesOrParentMatches patterns "a/../." = Ret false.
Proof.
  eexists. split; [vm_compute; reflexivity|].
  split; [reflexivity|].
  apply current_directory_never_matches. reflexivity.
Defined.

Example rule_a_go_compiled : NewPattern "a.go" = Ret rule_a_go.
Proof. vm_compute. reflexivity. Qed.

Example rule_docs_compiled : NewPattern "docs" = Ret rule_docs.
Proof. vm_compute. reflexivity. Qed.

Lemma eqb_false_neq (a b : bool) : a <> b -> Bool.eqb a b = false.
Proof. destruct a, b; simpl; congruence. Qed.

Lemma MatchesOrParentMatches_unfold (patterns : list Pattern) (file : string) :
  filepath.Clean file <> "." ->
  MatchesOrParentMatches patterns file =
  MatchesOrParentMatches_loop patterns (filepath.Clean file)
    (filepath.Dir (filepath.Clean file))
    (strings.Split (filepath.Dir (filepath.Clean file)) PathSeparator) false.
Proof.
  intros H. unfold MatchesOrParentMatches, filepath.FromSlash.
  destruct (String.eqb_spec (filepath.Clean file) "."); [contradiction|].
  reflexivity.
Qed.

(** C3, as stated, does not hold: a rule whose exclusion flag equals the
    running verdict is evaluated, and a rule whose flag differs is not.
    With no rule before it the running verdict is [false]; the inclusion
    rule "a.go" is then evaluated on the path "a.go" and turns the verdict
    to [true], while an exclusion rule whose [Match] would panic leaves the
    verdict [false] without a panic. *)
Lemma skip_when_flags_equal_refuted :
  ~ (forall (before : list Pattern) (rule : Pattern) (file : string) (m : bool),
        filepath.Clean file <> "." ->
        MatchesOrParentMatches before file = Ret m ->
        Exclusion rule = m ->
        MatchesOrParentMatches (before ++ [rule])%list file = Ret m)
  /\ (MatchesOrParentMatches [] "a.go" = Ret false
      /\ Exclusion (probe true) <> false
      /\ Match (probe true) "a.go" = Panics
      /\ MatchesOrParentMatches ([] ++ [probe true])%list "a.go" = Ret false).
Proof.
  split.
  - intros H.
    specialize (H [] rule_a_go "a.go" false).
    assert (E : MatchesOrParentMatches ([] ++ [rule_a_go])%list "a.go" = Ret true)
      by (vm_compute; reflexivity).
    rewrite E in H.
    assert (C : @Ret bool true = Ret false).
    { apply H; [vm_compute; discriminate | reflexivity | reflexivity]. }
    discriminate C.
  - repeat split; try (vm_compute; reflexivity). discriminate.
Qed.

(** C3, amended: at every position of the iteration, with [m] the running
    verdict after the rules [before], the rule is skipped exactly when its
    exclusion flag differs from [m]: then the running verdict after the rule
    is [m] whatever the rule is, even one whose [Match] would panic; when
    the flag equals [m] the rule is evaluated, its match predicate first and
    then the scan of the parent directories, and the running verdict is set
    from the result (a panic of [Match] is a panic of the evaluator). *)
Theorem skip_condition (before : list Pattern) (rule : Pattern)
    (file : string) (m : bool) :
  filepath.Clean file <> "." ->
  MatchesOrParentMatches before file = Ret m ->
  (Exclusion rule <> m ->
   MatchesOrParentMatches (before ++ [rule])%list file = Ret m)
  /\ (Exclusion rule = m ->
      MatchesOrParentMatches (before ++ [rule])%list file =
      (hit <- matchOrParents rule (filepath.Clean file)
                (filepath.Dir (filepath.Clean file))
                (strings.Split (filepath.Dir (filepath.Clean file)) PathSeparator) ;;
       Ret (if hit then negb (Exclusion rule) else m))).
Proof.
  intros Hclean Hbefore.
  rewrite MatchesOrParentMatches_unfold in * by assumption.
  rewrite MatchesOrParentMatches_loop_app, Hbefore.
  split; intros H; simpl.
  - rewrite (eqb_false_neq _ _ H). reflexivity.
  - rewrite H, Bool.eqb_reflx. simpl. reflexivity.
Qed.

Lemma skip_condition_witness :
  (Exclusion (probe true) <> false ->
   MatchesOrParentMatches ([] ++ [probe true])%list "docs/a.go" = Ret false)
  /\ (Exclusion (probe true) = false ->
      MatchesOrParentMatches ([] ++ [probe true])%list "docs/a.go" =
      (hit <- matchOrParents (probe true) (filepath.Clean "docs/a.go")
                (filepath.Dir (filepath.Clean "docs/a.go"))
                (strings.Split (filepath.Dir (filepath.Clean "docs/a.go"))
                   PathSeparator) ;;
       Ret (if hit then negb (Exclusion (probe true)) else false))).
Proof.
  apply (skip_condition [] (probe true) "docs/a.go" false).
  - vm_compute. discriminate.
  - reflexivity.
Defined.

(** ** The incremental evaluator without parent information *)

(** With the zero value of the match information, the incremental
    evaluator runs the loop of the full evaluator on the path as given. *)
Lemma zero_state_loop (patterns : list Pattern) (file : string) :
  forall (i : nat) (matched : bool) (matchInfo : list bool),
    verdict (MatchesUsingParentResults_loop patterns i file [] matched matchInfo)
    = MatchesOrParentMatches_loop patterns file (filepath.Dir file)
        (strings.Split (filepath.Dir file) PathSeparator) matched.
Proof.
  induction patterns as [|p rest IH]; intros i matched matchInfo; simpl.
  - reflexivity.
  - destruct (negb (Bool.eqb (Exclusion p) matched)); simpl.
    + apply IH.
    + unfold matchOrParents.
      destruct (Match p file) as [m| | |]; simpl; try reflexivity.
      destruct m; simpl.
      * apply IH.
      * destruct (negb (String.eqb (filepath.Dir file) ".")); simpl.
        -- destruct (scanParents p _ 0 _) as [h| | |]; simpl;
             try reflexivity; apply IH.
        -- apply IH.
Qed.

(** ** The compiler *)

(** C4 fails on the code: the expression compiled for a pattern of the
    Regexp strategy is not always anchored at both ends.  For the pattern
    [*\] the trailing backslash is appended alone and escapes the closing
    anchor: the expression is [^[^/]*\$], whose last item is a literal
    dollar, and [Match] holds on "a$b", of which only the proper prefix "a$"
    is matched.  For the pattern [a|*] the bar is not escaped (the bitmap
    [escapeBytes] has no bit for the characters from code 64 on, so
    [shouldEscape] is false on the bar and the braces): the expression is
    [^a|[^/]*$], an alternation, and [Match] holds on "a/b/c", of which only
    the prefix "a" is matched; [NewPatterns] accepts this pattern, and the
    full evaluator matches "abc" with it. *)
Theorem regexp_not_always_anchored :
  (exists p re,
      NewPattern "*\" = Ret p /\ Kind p = RegexpMatch /\ Regexp p = Some re
      /\ regexp.expr re = "^[^/]*\$"
      /\ Match p "a$b" = Ret true
      /\ regexp.MatchWhole re "a$b" = false)
  /\ (exists p re,
         NewPattern "a|*" = Ret p /\ Kind p = RegexpMatch /\ Regexp p = Some re
         /\ regexp.expr re = "^a|[^/]*$"
         /\ Match p "a/b/c" = Ret true
         /\ regexp.MatchWhole re "a/b/c" = false)
  /\ map shouldEscape (map cp (list_ascii_of_string ".+()$|{}"))
     = [true; true; true; true; true; false; false; false]
  /\ matchesOrParentMatches ["a|*"] "abc" = Ret true.
Proof.
  split; [|split; [|split]].
  - eexists. eexists. split; [vm_compute; reflexivity|].
    repeat split; vm_compute; reflexivity.
  - eexists. eexists. split; [vm_compute; reflexivity|].
    repeat split; vm_compute; reflexivity.
  - vm_compute. reflexivity.
  - vm_compute. reflexivity.
Qed.

(** ** The classification reached by the scan *)

Ltac loop_leaf IH :=
  match goal with
  | |- context [Compile_loop ?sc (S ?j) ?rs ?m] =>
    let H := fresh "H" in
    assert (H := IH sc ltac:(simpl in *; lia) j rs m);
    cbv zeta in H; simpl List.length in *;
    destruct H as [H|[H|[H1 [H2 H3]]]];
    [ rewrite H | rewrite H | rewrite H2 ];
    try discriminate; auto;
    try (right; right; repeat split; auto; lia)
  end.

Lemma Compile_loop_kind (n : nat) :
  forall (scan : scanner.Scanner), (List.length scan <= n)%nat ->
  forall (i : nat) (regStr : string) (mt : MatchType),
    let r := snd (Compile_loop scan (S i) regStr mt) in
    r = mt \/ r = RegexpMatch
    \/ (mt = ExactMatch /\ r = PrefixMatch /\ (2 <= List.length scan)%nat).
Proof.
  induction n as [|n IH]; intros scan Hlen i regStr mt; cbv zeta.
  - destruct scan; [left; reflexivity | simpl in Hlen; lia].
  - destruct scan as [|ch scan1]; [left; reflexivity|].
    simpl in Hlen. cbn [Compile_loop].
    destruct (ch =? cp "*")%Z.
    + destruct scan1 as [|ch2 scan2]; [loop_leaf IH|].
      destruct (ch2 =? cp "*")%Z; [|loop_leaf IH].
      change (S i =? 0)%nat with false. cbv iota.
      destruct scan2 as [|ch3 rest].
      * destruct mt; simpl; auto; right; right; repeat split; auto.
      * destruct (ch3 =? cp PathSeparator)%Z.
        -- destruct rest as [|ch4 rest'].
           ++ destruct mt; simpl; auto; right; right; repeat split; auto; lia.
           ++ loop_leaf IH.
        -- loop_leaf IH.
    + destruct (ch =? cp "?")%Z; [loop_leaf IH|].
      destruct (shouldEscape ch); [loop_leaf IH|].
      destruct (ch =? cp "\")%Z.
      * destruct scan1 as [|ch2 scan2]; loop_leaf IH.
      * destruct ((ch =? cp "[")%Z || (ch =? cp "]")%Z); loop_leaf IH.
Qed.

Ltac first_leaf K :=
  match goal with
  | |- context [Compile_loop ?sc 1 ?rs ?m] =>
    let H := fresh "H" in
    destruct (K sc 0%nat rs m) as [H|[H|[H1 [H2 H3]]]];
    [ rewrite H | rewrite H | rewrite H2 ];
    try discriminate; auto 6;
    try (right; right; left; split; [reflexivity | simpl in *; lia]);
    try (right; right; right; split; [reflexivity | eexists; reflexivity])
  end.

Lemma Compile_scan_kind (pattern : string) :
  let r := snd (Compile_scan pattern) in
  r = ExactMatch \/ r = RegexpMatch
  \/ (r = PrefixMatch /\ (2 <= List.length (scanner.Init pattern))%nat)
  \/ (r = SuffixMatch
      /\ exists rest, scanner.Init pattern = cp "*" :: cp "*" :: rest).
Proof.
  cbv zeta. unfold Compile_scan.
  destruct (scanner.Init pattern) as [|ch scan1]; [left; reflexivity|].
  cbn [Compile_loop].
  assert (K := fun sc => Compile_loop_kind (List.length sc) sc (le_n _)).
  cbv zeta in K.
  destruct (Z.eqb_spec ch (cp "*")) as [Hch|Hch].
  - subst ch. destruct scan1 as [|ch2 scan2]; [first_leaf K|].
    destruct (Z.eqb_spec ch2 (cp "*")) as [Hch2|Hch2]; [|first_leaf K].
    subst ch2. change (0 =? 0)%nat with true. cbv iota.
    destruct scan2 as [|ch3 rest].
    + simpl. right; right; right. split; [reflexivity | eexists; reflexivity].
    + destruct (ch3 =? cp PathSeparator)%Z.
      * destruct rest as [|ch4 rest'].
        -- simpl. right; right; right. split; [reflexivity | eexists; reflexivity].
        -- first_leaf K.
      * first_leaf K.
  - destruct (ch =? cp "?")%Z; [first_leaf K|].
    destruct (shouldEscape ch); [first_leaf K|].
    destruct (ch =? cp "\")%Z.
    + destruct scan1 as [|ch2 scan2]; first_leaf K.
    + destruct ((ch =? cp "[")%Z || (ch =? cp "]")%Z); first_leaf K.
Qed.

Lemma length_runes_from (s : string) :
  forall k, (List.length (utf8.runes_from k s) <= String.length s)%nat.
Proof.
  induction s as [|c s IH]; intros k; cbn [utf8.runes_from String.length].
  - simpl. lia.
  - destruct k as [|k].
    + destruct (utf8.DecodeRuneInString (String c s)) as [r n].
      cbn [List.length]. specialize (IH (n - 1)%nat). lia.
    + specialize (IH k). lia.
Qed.

Lemma length_Init (s : string) :
  (List.length (scanner.Init s) <= String.length s)%nat.
Proof.
  unfold scanner.Init. pose proof (length_runes_from s 0) as H.
  fold (utf8.runes s) in H.
  destruct (utf8.runes s) as [|r rest]; simpl in *; [lia|].
  destruct (r =? scanner.BOM)%Z; simpl; lia.
Qed.

Lemma MatchType_eqb_eq (a b : MatchType) : MatchType_eqb a b = true <-> a = b.
Proof. destruct a, b; simpl; split; intros H; congruence. Qed.

Lemma Compile_inv (pattern : string) (k : MatchType) (re : option regexp.Regexp) :
  Compile pattern = Ret (k, re) ->
  k = snd (Compile_scan pattern)
  /\ (k = RegexpMatch -> exists r, re = Some r).
Proof.
  unfold Compile. destruct (Compile_scan pattern) as [regStr mt]. simpl.
  destruct (MatchType_eqb mt RegexpMatch) eqn:E; simpl.
  - destruct (regexp.Compile (regStr ++ "$")); simpl; intros H; inversion H; subst.
    split; [reflexivity | eauto].
  - intros H; inversion H; subst. split; [reflexivity|].
    intros ->. simpl in E. discriminate.
Qed.

Lemma NewPattern_inv (pattern : string) (p : Pattern) :
  NewPattern pattern = Ret p ->
  Compile (CleanedPattern p) = Ret (Kind p, Regexp p).
Proof.
  unfold NewPattern.
  destruct (index pattern 0) as [c0| | |]; simpl; try discriminate.
  destruct (Ascii.eqb c0 "!").
  - destruct (len pattern =? 1)%Z; simpl; try discriminate.
    destruct (slice pattern 1 (len pattern)) as [q| | |]; simpl; try discriminate.
    destruct (Compile q) as [[k re]| | |] eqn:E; simpl; intros H; inversion H; subst.
    simpl. assumption.
  - simpl. destruct (Compile pattern) as [[k re]| | |] eqn:E; simpl;
      intros H; inversion H; subst. simpl. assumption.
Qed.

Lemma slice_in_range (s : string) (lo hi : Z) :
  (0 <= lo <= hi)%Z -> (hi <= len s)%Z ->
  slice s lo hi = Ret (substring (Z.to_nat lo) (Z.to_nat (hi - lo)) s).
Proof.
  intros H1 H2. unfold slice. unfold len in H2.
  destruct (Z.leb_spec 0 lo); [|lia].
  destruct (Z.leb_spec lo hi); [|lia].
  destruct (Z.leb_spec hi (Z.of_nat (String.length s))); [|lia].
  reflexivity.
Qed.

Lemma substring_zero (n : nat) (s : string) : substring n 0 s = EmptyString.
Proof.
  revert n. induction s as [|c s IH]; intros [|n]; simpl; auto.
Qed.

Lemma HasSuffix_empty (path : string) :
  strings.HasSuffix path EmptyString = true.
Proof.
  unfold strings.HasSuffix. simpl. rewrite substring_zero. reflexivity.
Qed.

(** What the scan guarantees of a pattern built from it. *)
Lemma scanned_kind (p : Pattern) :
  scanned p ->
  (Kind p = SuffixMatch ->
   (2 <= len (CleanedPattern p))%Z
   /\ exists rest, scanner.Init (CleanedPattern p) = cp "*" :: cp "*" :: rest)
  /\ (Kind p = PrefixMatch -> (2 <= len (CleanedPattern p))%Z)
  /\ Kind p <> UnknownMatch.
Proof.
  intros [Hk _].
  pose proof (Compile_scan_kind (CleanedPattern p)) as K. cbv zeta in K.
  rewrite <- Hk in K.
  pose proof (length_Init (CleanedPattern p)) as L. unfold len.
  repeat split.
  - destruct K as [K|[K|[[K1 K2]|[K1 [rest K2]]]]]; try congruence.
    rewrite K2 in L. simpl in L. lia.
  - destruct K as [K|[K|[[K1 K2]|[K1 [rest K2]]]]]; try congruence. eauto.
  - intros E. destruct K as [K|[K|[[K1 K2]|[K1 [rest K2]]]]]; try congruence.
    lia.
  - intros E. destruct K as [K|[K|[[K1 K2]|[K1 [rest K2]]]]]; congruence.
Qed.

(** [Match] returns on a pattern built from the scan. *)
Lemma scanned_Match_total (p : Pattern) :
  scanned p -> forall path, exists b, Match p path = Ret b.
Proof.
  intros H path. destruct (scanned_kind _ H) as (HS & HP & _).
  destruct H as [_ HR].
  unfold Match. destruct (Kind p).
  - eauto.
  - eauto.
  - specialize (HP eq_refl). rewrite slice_in_range by lia. simpl. eauto.
  - destruct (HS eq_refl) as [HS' _]. rewrite slice_in_range by lia. simpl.
    destruct (strings.HasSuffix path _) eqn:E; [eauto|].
    destruct (substring _ _ (CleanedPattern p)) as [|c0 rest] eqn:Es.
    + rewrite HasSuffix_empty in E. discriminate.
    + unfold index. simpl.
      destruct (Ascii.eqb c0 PathSeparator); [|eauto].
      rewrite slice_in_range;
        [simpl; eauto | unfold len; cbn [String.length]; lia ..].
  - destruct (HR eq_refl) as [re ->]. eauto.
Qed.

Lemma NewPattern_scanned (pattern : string) (p : Pattern) :
  NewPattern pattern = Ret p -> scanned p.
Proof.
  intros H. apply NewPattern_inv in H. apply Compile_inv in H. exact H.
Qed.

(** [Match] returns on a pattern built by [NewPattern]. *)
Lemma NewPattern_Match_total (pattern : string) (p : Pattern) :
  NewPattern pattern = Ret p -> forall path, exists b, Match p path = Ret b.
Proof.
  intros H. apply scanned_Match_total. exact (NewPattern_scanned _ _ H).
Qed.

Example rule_star_compiled : NewPattern "*" = Ret rule_star.
Proof. vm_compute. reflexivity. Qed.

Lemma search_BeginText_later (r : regexp.regex) (s : list Z) :
  regexp.search (regexp.Concat regexp.BeginText r) false s = false.
Proof. induction s as [|x s IH]; simpl; auto. Qed.

Lemma iterate_not_separator (n : nat) :
  forall (s : list Z) (b : bool), (List.length s <= n)%nat ->
    regexp.iterate (regexp.matches not_separator)
      (fun b' s' => regexp.matches regexp.EndText b' s' (fun _ _ => true)) n b s
    = forallb (fun x => negb (x =? cp PathSeparator)%Z) s.
Proof.
  induction n as [|n IH]; intros s b Hlen.
  - destruct s; [reflexivity | simpl in Hlen; lia].
  - destruct s as [|x s]; [reflexivity|].
    simpl in Hlen. cbn [regexp.iterate regexp.matches not_separator forallb].
    rewrite IH by lia.
    assert (L : (List.length s <? List.length (x :: s))%nat = true)
      by (apply Nat.ltb_lt; simpl; lia).
    rewrite L. simpl.
    unfold regexp.in_ranges, utf8.between. simpl.
    destruct (Z.eqb_spec x (cp PathSeparator)),
      (Z.leb_spec (cp PathSeparator) x), (Z.leb_spec x (cp PathSeparator));
      simpl; auto; lia.
Qed.

Lemma Match_star (path : string) :
  Match rule_star path = Ret (no_separator path).
Proof.
  unfold Match, no_separator. simpl. f_equal.
  unfold regexp.MatchString. simpl regexp.prog.
  generalize (utf8.runes path) as s. intros s.
  assert (E : regexp.search (regexp.prog star_expr) true s
              = regexp.matches (regexp.prog star_expr) true s (fun _ _ => true)).
  { destruct s as [|x s].
    - reflexivity.
    - cbn [regexp.search]. simpl regexp.prog.
      rewrite search_BeginText_later. apply orb_false_r. }
  simpl regexp.prog in E. rewrite E.
  cbn [regexp.matches andb].
  apply iterate_not_separator. lia.
Qed.

Lemma Compile_loop_Regexp (scan : scanner.Scanner) (i : nat) (regStr : string) :
  snd (Compile_loop scan (S i) regStr RegexpMatch) = RegexpMatch.
Proof.
  destruct (Compile_loop_kind (List.length scan) scan (le_n _) i regStr RegexpMatch)
    as [H|[H|[H _]]]; auto; discriminate.
Qed.

Lemma single_star_step (scan : scanner.Scanner) (i : nat) (regStr : string)
    (mt : MatchType) :
  scanner.Peek scan <> cp "*" ->
  Compile_loop (cp "*" :: scan) i regStr mt
  = Compile_loop scan (S i) (regStr ++ "[^/]*") RegexpMatch.
Proof.
  intros H. cbn [Compile_loop]. change (cp "*" =? cp "*")%Z with true. cbv iota.
  destruct scan as [|ch2 scan2]; [reflexivity|].
  simpl in H. destruct (Z.eqb_spec ch2 (cp "*")); [contradiction | reflexivity].
Qed.

(** ** The two entry points *)

Lemma safe_of_total (p : Pattern) :
  (forall path, exists b, Match p path = Ret b) -> safe p.
Proof.
  intros H path. unfold matchb. destruct (H path) as [b ->]. reflexivity.
Qed.

Lemma scanParents_safe (p : Pattern) (dirs : list string) :
  safe p ->
  forall n i,
    scanParents p dirs i n
    = Ret (existsb (fun j => matchb p (prefix_at dirs j)) (seq i n)).
Proof.
  intros Hs. induction n as [|n IH]; intros i; simpl; [reflexivity|].
  fold (prefix_at dirs i). rewrite Hs. simpl.
  destruct (matchb p (prefix_at dirs i)); simpl; [reflexivity | apply IH].
Qed.

Lemma matchOrParents_safe (p : Pattern) (file parentPath : string)
    (dirs : list string) :
  safe p -> matchOrParents p file parentPath dirs = Ret (hit file parentPath dirs p).
Proof.
  intros Hs. unfold matchOrParents, hit. rewrite Hs. simpl.
  destruct (matchb p file); simpl; [reflexivity|].
  destruct (negb (String.eqb parentPath ".")); simpl; [|reflexivity].
  apply scanParents_safe. assumption.
Qed.

Lemma full_loop_inclusions (file parentPath : string) (dirs : list string) :
  forall (patterns : list Pattern) (matched : bool),
    Forall safe patterns -> inclusions patterns = true ->
    MatchesOrParentMatches_loop patterns file parentPath dirs matched
    = Ret (matched || existsb (hit file parentPath dirs) patterns).
Proof.
  induction patterns as [|p rest IH]; intros matched Hs Hi; simpl.
  - rewrite orb_false_r. reflexivity.
  - inversion Hs as [|? ? Hp Hrest]; subst.
    unfold inclusions in Hi. simpl in Hi. apply andb_true_iff in Hi.
    destruct Hi as [Hex Hi]. apply negb_true_iff in Hex. rewrite Hex.
    destruct matched; simpl.
    + rewrite IH by assumption. reflexivity.
    + rewrite matchOrParents_safe by assumption. simpl.
      rewrite IH by assumption.
      destruct (hit file parentPath dirs p); reflexivity.
Qed.

Lemma level_length (patterns : list Pattern) (file : string) :
  forall bits matched,
    List.length bits = List.length patterns ->
    List.length (snd (level patterns bits file matched)) = List.length patterns.
Proof.
  induction patterns as [|p rest IH]; intros [|b bits] matched H; simpl in *;
    try reflexivity; try discriminate.
  specialize (IH bits (matched || (b || negb matched && matchb p file))).
  destruct (level rest bits file _) as [v l]. simpl in *. rewrite IH; lia.
Qed.

Lemma level_verdict (patterns : list Pattern) (file : string) :
  forall bits matched,
    List.length bits = List.length patterns ->
    fst (level patterns bits file matched)
    = matched || existsb (fun b => b) bits || some_rule_matches patterns file.
Proof.
  induction patterns as [|p rest IH]; intros [|b bits] matched H; simpl in *;
    try discriminate.
  - rewrite !orb_false_r. reflexivity.
  - specialize (IH bits (matched || (b || negb matched && matchb p file))).
    destruct (level rest bits file _) as [v l]. simpl in *.
    rewrite IH by lia.
    unfold some_rule_matches.
    destruct matched, b, (matchb p file); simpl;
      rewrite ?orb_true_r; auto.
Qed.

Lemma level_bits (patterns : list Pattern) (file : string) :
  forall bits matched,
    List.length bits = List.length patterns ->
    matched || existsb (fun b => b) (snd (level patterns bits file matched))
    = fst (level patterns bits file matched).
Proof.
  induction patterns as [|p rest IH]; intros [|b bits] matched H; simpl in *;
    try discriminate.
  - rewrite orb_false_r. reflexivity.
  - specialize (IH bits (matched || (b || negb matched && matchb p file))).
    destruct (level rest bits file _) as [v l]. simpl in *.
    rewrite <- IH by lia.
    destruct matched, b, (matchb p file); simpl;
      rewrite ?orb_true_r; auto.
Qed.

Section Lists.
Context {A : Type}.

Lemma skipn_cons_inv (l : list A) :
  forall (i : nat) (x : A) (t : list A),
    skipn i l = x :: t ->
    skipn (S i) l = t /\ firstn (S i) l = (firstn i l ++ [x])%list
    /\ nth_error l i = Some x.
Proof.
  induction l as [|h l IH]; intros i x t H.
  - destruct i; discriminate H.
  - destruct i as [|i].
    + simpl in H. inversion H; subst. auto.
    + simpl in H. destruct (IH i x t H) as (H1 & H2 & H3).
      repeat split.
      * exact H1.
      * rewrite !firstn_cons, H2. reflexivity.
      * exact H3.
Qed.

Lemma store_skipn (l : list A) :
  forall (i : nat) (v : A), skipn (S i) (store l i v) = skipn (S i) l.
Proof.
  induction l as [|h l IH]; intros i v.
  - destruct i; reflexivity.
  - destruct i as [|i]; [reflexivity|]. simpl. apply (IH i v).
Qed.

Lemma store_firstn (l : list A) :
  forall (i : nat) (v x : A) (t : list A),
    skipn i l = x :: t ->
    firstn (S i) (store l i v) = (firstn i l ++ [v])%list.
Proof.
  induction l as [|h l IH]; intros i v x t H.
  - destruct i; discriminate H.
  - destruct i as [|i]; [reflexivity|].
    simpl in H. cbn [store]. rewrite !firstn_cons, (IH i v x t H). reflexivity.
Qed.

End Lists.

Lemma incremental_loop_level (file : string) (pm : list bool) :
  forall (rest : list Pattern) (i : nat) (matched : bool) (info bits : list bool),
    Forall safe rest -> inclusions rest = true ->
    (pm = [] /\ filepath.Dir file = "." /\ bits = repeat false (List.length rest))
    \/ (pm <> [] /\ bits = skipn i pm /\ List.length bits = List.length rest) ->
    skipn i info = repeat false (List.length rest) ->
    MatchesUsingParentResults_loop rest i file pm matched info
    = Ret (fst (level rest bits file matched),
           (firstn i info ++ snd (level rest bits file matched))%list).
Proof.
  induction rest as [|p rest IH]; intros i matched info bits Hs Hi Hpm Hinfo.
  - simpl. destruct bits; simpl; rewrite app_nil_r;
      rewrite <- (firstn_skipn i info) at 1; simpl in Hinfo; rewrite Hinfo;
      rewrite app_nil_r; reflexivity.
  - inversion Hs as [|? ? Hp Hrest]; subst.
    unfold inclusions in Hi. simpl in Hi. apply andb_true_iff in Hi.
    destruct Hi as [Hex Hi]. apply negb_true_iff in Hex.
    simpl in Hinfo.
    destruct (skipn_cons_inv info i false _ Hinfo) as (Hinfo' & Hfirst & _).
    assert (Hb : exists b bits',
               bits = b :: bits'
               /\ (if negb (List.length pm =? 0)%nat
                   then at_index pm i else Ret false) = Ret b
               /\ ((pm = [] /\ filepath.Dir file = "."
                    /\ bits' = repeat false (List.length rest))
                   \/ (pm <> [] /\ bits' = skipn (S i) pm
                       /\ List.length bits' = List.length rest))
               /\ (b = false \/ pm <> [])).
    { destruct Hpm as [(-> & Hd & ->)|(Hne & -> & Hlen)].
      - exists false, (repeat false (List.length rest)). simpl. auto 10.
      - destruct (skipn i pm) as [|b bits'] eqn:E; [discriminate Hlen|].
        destruct (skipn_cons_inv pm i b bits' E) as (E1 & _ & E3).
        exists b, bits'. split; [reflexivity|].
        split.
        + destruct pm; [contradiction|]. simpl. unfold at_index. rewrite E3.
          reflexivity.
        + split; [right; repeat split; auto; simpl in Hlen; lia | auto]. }
    destruct Hb as (b & bits' & -> & Hat & Hpm' & Hbz).
    cbn [MatchesUsingParentResults_loop level]. rewrite Hat. cbn [bind].
    rewrite Hex.
    destruct b; simpl.
    + (* the parent matched the rule *)
      rewrite orb_true_r.
      rewrite (IH (S i) true (store info i true) bits' Hrest Hi Hpm').
      * destruct (level rest bits' file true) as [v l]. cbn [fst snd].
        rewrite (store_firstn info i true false _ Hinfo), <- app_assoc.
        reflexivity.
      * rewrite store_skipn. exact Hinfo'.
    + destruct matched; simpl.
      * (* an inclusion rule while the file is matched: skipped *)
        rewrite (IH (S i) true info bits' Hrest Hi Hpm' Hinfo').
        destruct (level rest bits' file true) as [v l]. cbn [fst snd].
        rewrite Hfirst, <- app_assoc. reflexivity.
      * rewrite Hp. cbn [bind].
        assert (E : (if negb (matchb p file) && (List.length pm =? 0)%nat
                     then
                       if negb (String.eqb (filepath.Dir file) ".")
                       then scanParents p
                              (strings.Split (filepath.Dir file) PathSeparator) 0
                              (List.length
                                 (strings.Split (filepath.Dir file) PathSeparator))
                       else Ret (matchb p file)
                     else Ret (matchb p file)) = Ret (matchb p file)).
        { destruct Hpm' as [(-> & Hd & _)|(Hne & _)].
          - rewrite Hd. simpl. destruct (negb (matchb p file)); reflexivity.
          - destruct pm; [contradiction|]. simpl. rewrite andb_false_r.
            reflexivity. }
        rewrite E. cbn [bind].
        assert (M : (if matchb p file then true else false) = matchb p file)
          by (destruct (matchb p file); reflexivity).
        rewrite M.
        rewrite (IH (S i) (matchb p file) (store info i (matchb p file)) bits'
                   Hrest Hi Hpm').
        -- destruct (level rest bits' file (matchb p file)) as [v l]. cbn [fst snd].
           rewrite (store_firstn info i _ false _ Hinfo), <- app_assoc.
           reflexivity.
        -- rewrite store_skipn. exact Hinfo'.
Qed.

Lemma existsb_repeat_false (n : nat) :
  existsb (fun b : bool => b) (repeat false n) = false.
Proof. induction n; simpl; auto. Qed.

Lemma existsb_orb {A : Type} (f g : A -> bool) (l : list A) :
  existsb (fun x => f x || g x) l = existsb f l || existsb g l.
Proof.
  induction l as [|x l IH]; simpl; [reflexivity|]. rewrite IH.
  destruct (f x), (g x), (existsb f l); reflexivity.
Qed.

Lemma existsb_const_false {A : Type} (l : list A) :
  existsb (fun _ => false) l = false.
Proof. induction l; simpl; auto. Qed.

Lemma existsb_swap {A B : Type} (f : A -> B -> bool) (l1 : list A) (l2 : list B) :
  existsb (fun x => existsb (fun y => f x y) l2) l1
  = existsb (fun y => existsb (fun x => f x y) l1) l2.
Proof.
  induction l1 as [|x l1 IH]; simpl.
  - rewrite existsb_const_false. reflexivity.
  - rewrite IH, existsb_orb. reflexivity.
Qed.

(** One call of the incremental evaluator on inclusion rules, with the zero
    parent state on a file without parent directory, or with a parent state
    of the right length. *)
Lemma incremental_call (patterns : list Pattern) (file : string)
    (pm : list bool) :
  Forall safe patterns -> inclusions patterns = true ->
  (pm = [] /\ filepath.Dir file = ".")
  \/ (pm <> [] /\ List.length pm = List.length patterns) ->
  exists info,
    MatchesUsingParentResults patterns file pm
    = Ret (existsb (fun b => b) pm || some_rule_matches patterns file, info)
    /\ List.length info = List.length patterns
    /\ existsb (fun b => b) info
       = existsb (fun b => b) pm || some_rule_matches patterns file.
Proof.
  intros Hs Hi Hpm.
  set (bits := match pm with [] => repeat false (List.length patterns) | _ => pm end).
  assert (Hlen : List.length bits = List.length patterns).
  { unfold bits. destruct Hpm as [(-> & _)|(Hne & Hl)].
    - apply repeat_length.
    - destruct pm; [contradiction | exact Hl]. }
  assert (Hex : existsb (fun b => b) bits = existsb (fun b => b) pm).
  { unfold bits. destruct pm; [apply existsb_repeat_false | reflexivity]. }
  assert (E : MatchesUsingParentResults patterns file pm
              = Ret (level patterns bits file false)).
  { unfold MatchesUsingParentResults, filepath.FromSlash.
    assert (G : negb (List.length pm =? 0)%nat
                && negb (List.length pm =? List.length patterns)%nat = false).
    { destruct Hpm as [(-> & _)|(Hne & Hl)]; [reflexivity|].
      rewrite Hl, Nat.eqb_refl. apply andb_false_r. }
    rewrite G.
    rewrite (incremental_loop_level file pm patterns 0 false _ bits Hs Hi).
    - simpl. destruct (level patterns bits file false); reflexivity.
    - destruct Hpm as [(-> & Hd)|(Hne & Hl)].
      + left. auto.
      + right. unfold bits. destruct pm; [contradiction|]. simpl. auto.
    - reflexivity. }
  exists (snd (level patterns bits file false)).
  pose proof (level_verdict patterns file bits false Hlen) as V.
  pose proof (level_bits patterns file bits false Hlen) as B.
  pose proof (level_length patterns file bits false Hlen) as L.
  simpl in V, B. rewrite Hex in V.
  rewrite E. destruct (level patterns bits file false) as [v l]. simpl in *.
  subst v. repeat split; auto.
Qed.

Lemma Split_cons (c : ascii) (s : string) (sep : ascii) :
  strings.Split (String c s) sep
  = if Ascii.eqb c sep then EmptyString :: strings.Split s sep
    else match strings.Split s sep with
         | h :: t => String c h :: t
         | [] => [String c EmptyString]
         end.
Proof. reflexivity. Qed.

Lemma Split_head_no_separator (s : string) :
  forall h t, strings.Split s filepath.Separator = h :: t ->
              filepath.upto_last_separator h = EmptyString.
Proof.
  induction s as [|c s IH]; intros h t H.
  - inversion H; reflexivity.
  - rewrite Split_cons in H.
    destruct (Ascii.eqb c filepath.Separator) eqn:E.
    + inversion H; reflexivity.
    + destruct (strings.Split s filepath.Separator) as [|h' t'] eqn:E'.
      * inversion H; subst. simpl. simpl in E. rewrite E. reflexivity.
      * inversion H; subst. cbn [filepath.upto_last_separator].
        rewrite (IH h' _ eq_refl). rewrite E. reflexivity.
Qed.

Lemma Dir_first_prefix (parentPath : string) :
  filepath.Dir (prefix_at (strings.Split parentPath PathSeparator) 0) = ".".
Proof.
  unfold prefix_at, PathSeparator.
  destruct (strings.Split parentPath filepath.Separator) as [|h t] eqn:E.
  - reflexivity.
  - simpl. unfold filepath.Dir.
    rewrite (Split_head_no_separator parentPath h t E). reflexivity.
Qed.

(** The threaded evaluation of the prefixes [i], ..., [i + n - 1] over
    inclusion rules. *)
Lemma threadParents_inclusions (patterns : list Pattern) (dirs : list string) :
  Forall safe patterns -> inclusions patterns = true -> patterns <> [] ->
  forall (n i : nat) (info : list bool),
    (info = [] /\ filepath.Dir (prefix_at dirs i) = ".")
    \/ (info <> [] /\ List.length info = List.length patterns) ->
    exists info',
      threadParents patterns dirs i n info = Ret info'
      /\ (n = 0%nat /\ info' = info
          \/ (info' <> [] /\ List.length info' = List.length patterns))
      /\ existsb (fun b => b) info'
         = existsb (fun b => b) info
           || existsb (fun j => some_rule_matches patterns (prefix_at dirs j))
                (seq i n).
Proof.
  intros Hs Hi Hne. induction n as [|n IH]; intros i info Hinfo.
  - exists info. simpl. rewrite orb_false_r. auto.
  - cbn [threadParents seq existsb].
    change (strings.Join (firstn (i + 1) dirs) "/") with (prefix_at dirs i).
    destruct (incremental_call patterns (prefix_at dirs i) info Hs Hi Hinfo)
      as (info1 & E & L & B).
    rewrite E.
    assert (Hinfo1 : info1 <> [] /\ List.length info1 = List.length patterns).
    { split; [|exact L]. destruct info1; [|discriminate].
      destruct patterns; [contradiction | discriminate L]. }
    destruct (IH (S i) info1 (or_intror Hinfo1)) as (info' & E' & S' & B').
    exists info'. split; [exact E'|]. split.
    + right. destruct S' as [[_ ->]|S']; assumption.
    + rewrite B', B, orb_assoc. reflexivity.
Qed.

Lemma threadParents_no_rules (dirs : list string) :
  forall n i, threadParents [] dirs i n [] = Ret [].
Proof. induction n as [|n IH]; intros i; simpl; auto. Qed.

Lemma slice_returns_or_panics (s : string) (lo hi : Z) :
  (exists r, slice s lo hi = Ret r) \/ slice s lo hi = Panics.
Proof.
  unfold slice.
  destruct ((0 <=? lo)%Z && (lo <=? hi)%Z
            && (hi <=? Z.of_nat (String.length s))%Z); eauto.
Qed.

(** [Match] returns or panics. *)
Lemma Match_returns_or_panics (p : Pattern) (path : string) :
  (exists b, Match p path = Ret b) \/ Match p path = Panics.
Proof.
  unfold Match. destruct (Kind p); eauto.
  - destruct (slice_returns_or_panics (CleanedPattern p) 0
                (len (CleanedPattern p) - 2)) as [[r ->]| ->]; simpl; eauto.
  - destruct (slice_returns_or_panics (CleanedPattern p) 2
                (len (CleanedPattern p))) as [[suffix ->]| ->]; simpl; eauto.
    destruct (strings.HasSuffix path suffix); eauto.
    unfold index. simpl.
    destruct (String.get 0 suffix); simpl; eauto.
    destruct (Ascii.eqb a PathSeparator); eauto.
    destruct (slice_returns_or_panics suffix 1 (len suffix)) as [[r ->]| ->];
      simpl; eauto.
  - destruct (Regexp p); eauto.
Qed.

Lemma scanParents_returns_or_panics (p : Pattern) (dirs : list string) :
  forall n i,
    (exists b, scanParents p dirs i n = Ret b) \/ scanParents p dirs i n = Panics.
Proof.
  induction n as [|n IH]; intros i; simpl; eauto.
  destruct (Match_returns_or_panics p
              (strings.Join (firstn (i + 1) dirs) pathSeparator)) as [[b ->]| ->];
    simpl; auto.
  destruct b; eauto.
Qed.

Lemma full_loop_returns_or_panics (file parentPath : string) (dirs : list string) :
  forall patterns matched,
    (exists b, MatchesOrParentMatches_loop patterns file parentPath dirs matched
               = Ret b)
    \/ MatchesOrParentMatches_loop patterns file parentPath dirs matched = Panics.
Proof.
  induction patterns as [|p rest IH]; intros matched; simpl; eauto.
  destruct (negb (Bool.eqb (Exclusion p) matched)); [apply IH|].
  unfold matchOrParents.
  destruct (Match_returns_or_panics p file) as [[b ->]| ->]; simpl; auto.
  destruct (negb b && negb (String.eqb parentPath ".")).
  - destruct (scanParents_returns_or_panics p dirs (List.length dirs) 0)
      as [[h ->]| ->]; simpl; auto.
  - simpl. apply IH.
Qed.

(** Without parent state and without parent directory, the last call of
    the threaded run is the full evaluation, for every rule list. *)
Lemma check_without_parent (patterns : list Pattern) (text : string) :
  filepath.Dir text = "." ->
  check patterns text
  = MatchesOrParentMatches_loop patterns text (filepath.Dir text)
      (strings.Split (filepath.Dir text) PathSeparator) false.
Proof.
  intros Hd. unfold check, filepath.FromSlash.
  destruct (String.eqb_spec (filepath.Dir text) "."); [|contradiction].
  cbn [negb bind].
  pose proof (zero_state_loop patterns text 0 false
                (repeat false (List.length patterns))) as Z.
  unfold MatchesUsingParentResults, filepath.FromSlash. simpl.
  destruct (full_loop_returns_or_panics text (filepath.Dir text)
              (strings.Split (filepath.Dir text) PathSeparator) patterns false)
    as [[b E]|E]; rewrite E in *;
    destruct (MatchesUsingParentResults_loop patterns 0 text [] false _)
      as [[v info]| | |]; simpl in Z; try discriminate; try reflexivity.
  inversion Z; subst. reflexivity.
Qed.

Lemma NewPatterns_safe (rules : list string) :
  forall patterns, NewPatterns rules = Ret patterns -> Forall safe patterns.
Proof.
  induction rules as [|r rules IH]; intros patterns H.
  - simpl in H. inversion H. constructor.
  - cbn [NewPatterns] in H. cbv zeta in H.
    destruct (strings.TrimSpace r) as [|c q]; [apply IH; exact H|].
    destruct (filepath.Match _ _) as [m| | |]; cbn [bind] in H;
      try discriminate.
    destruct (NewPattern _) as [newp| | |] eqn:E; simpl in H; try discriminate.
    destruct (NewPatterns rules) as [ps| | |]; simpl in H; try discriminate.
    inversion H; subst. constructor; [|apply IH; reflexivity].
    apply safe_of_total. eapply NewPattern_Match_total. exact E.
Qed.

Lemma Split_nonempty (s : string) (sep : ascii) : strings.Split s sep <> [].
Proof.
  destruct s as [|c s]; [discriminate|]. rewrite Split_cons.
  destruct (Ascii.eqb c sep); [discriminate|].
  destruct (strings.Split s sep); discriminate.
Qed.

Lemma check_inclusions (patterns : list Pattern) (text : string) :
  Forall safe patterns -> inclusions patterns = true ->
  filepath.Dir text <> "." ->
  check patterns text
  = MatchesOrParentMatches_loop patterns text (filepath.Dir text)
      (strings.Split (filepath.Dir text) PathSeparator) false.
Proof.
  intros Hs Hi Hd.
  rewrite (full_loop_inclusions _ _ _ patterns false Hs Hi). simpl.
  unfold check, filepath.FromSlash.
  destruct (String.eqb_spec (filepath.Dir text) "."); [contradiction|].
  cbn [negb].
  set (dirs := strings.Split (filepath.Dir text) PathSeparator).
  destruct patterns as [|p0 rest] eqn:EP.
  - rewrite threadParents_no_rules. reflexivity.
  - assert (Hne : patterns <> []) by (rewrite EP; discriminate).
    rewrite <- EP in *. clear EP p0 rest.
    destruct (threadParents_inclusions patterns dirs Hs Hi Hne
                (List.length dirs) 0 [])
      as (info & E & S & B).
    { left. split; [reflexivity | apply Dir_first_prefix]. }
    rewrite E. cbn [bind].
    assert (Hinfo : info <> [] /\ List.length info = List.length patterns).
    { destruct S as [[Hz _]|S]; [|exact S].
      exfalso. apply (Split_nonempty (filepath.Dir text) PathSeparator).
      fold dirs. destruct dirs; [reflexivity | discriminate Hz]. }
    destruct (incremental_call patterns text info Hs Hi (or_intror Hinfo))
      as (info2 & E2 & _ & _).
    rewrite E2. f_equal. rewrite B.
    change (existsb (fun b : bool => b) []) with false. cbn [orb].
    unfold some_rule_matches at 1.
    rewrite (existsb_swap (fun j p => matchb p (prefix_at dirs j))).
    unfold some_rule_matches, hit.
    destruct (String.eqb_spec (filepath.Dir text) "."); [contradiction|].
    cbn [negb andb].
    rewrite (existsb_orb (fun p => matchb p text)). apply orb_comm.
Qed.

(** C2: the fixtures of directory-level exclusion and re-inclusion: the
    rules ["docs", "!docs/README.md"] do not match "docs/README.md"; the
    rules ["**", "!util/docker/web", "util/docker/web/foo"] match
    "util/docker/web/foo".  A match of a rule on a parent directory counts
    as a match of the rule on the path: the rule "docs" alone matches
    "docs/README.md", on which its own predicate is false, and in general
    an inclusion rule that matches one of the prefixes of the parent
    directory of a path matches the path. *)
Theorem directory_fixtures :
  matchesOrParentMatches ["docs"; "!docs/README.md"] "docs/README.md" = Ret false
  /\ matchesOrParentMatches ["**"; "!util/docker/web"; "util/docker/web/foo"]
       "util/docker/web/foo" = Ret true
  /\ matchesOrParentMatches ["docs"] "docs/README.md" = Ret true
  /\ (p <- NewPattern "docs" ;; Match p "docs/README.md") = Ret false
  /\ (forall (rule : Pattern) (file : string) (j : nat),
         safe rule -> Exclusion rule = false ->
         filepath.Clean file <> "." ->
         filepath.Dir (filepath.Clean file) <> "." ->
         (j < List.length
                (strings.Split (filepath.Dir (filepath.Clean file)) PathSeparator))%nat ->
         Match rule
           (prefix_at
              (strings.Split (filepath.Dir (filepath.Clean file)) PathSeparator) j)
         = Ret true ->
         MatchesOrParentMatches [rule] file = Ret true).
Proof.
  split; [vm_compute; reflexivity|].
  split; [vm_compute; reflexivity|].
  split; [vm_compute; reflexivity|].
  split; [vm_compute; reflexivity|].
  intros rule file j Hsafe Hex Hclean Hdir Hj Hm.
  rewrite MatchesOrParentMatches_unfold by assumption.
  rewrite full_loop_inclusions.
  - f_equal. cbn [existsb orb]. rewrite orb_false_r. unfold hit.
    destruct (String.eqb_spec (filepath.Dir (filepath.Clean file)) ".");
      [contradiction|].
    cbn [negb andb].
    assert (E : existsb
                  (fun k => matchb rule
                     (prefix_at
                        (strings.Split (filepath.Dir (filepath.Clean file))
                           PathSeparator) k))
                  (seq 0 (List.length
                            (strings.Split (filepath.Dir (filepath.Clean file))
                               PathSeparator))) = true).
    { apply existsb_exists. exists j. split.
      - apply in_seq. lia.
      - unfold matchb. rewrite Hm. reflexivity. }
    rewrite E. apply orb_true_r.
  - constructor; [assumption | constructor].
  - unfold inclusions. simpl. rewrite Hex. reflexivity.
Qed.

Lemma directory_fixtures_witness :
  MatchesOrParentMatches [rule_docs] "docs/api/README.md" = Ret true.
Proof.
  apply (proj2 (proj2 (proj2 (proj2 directory_fixtures))) rule_docs
           "docs/api/README.md" 0%nat).
  - intros path. reflexivity.
  - reflexivity.
  - vm_compute. discriminate.
  - vm_compute. discriminate.
  - vm_compute. lia.
  - vm_compute. reflexivity.
Defined.

(** C7, as stated, does not hold.  On the path "." with the rules ["*"]
    the full evaluator answers [false] and the threaded incremental run
    answers [true]: only the full evaluator cleans the path and guards the
    current directory.  On the clean path "a/b/c" with the rules
    ["a", "!a/b", "a"] the full evaluator answers [true] and the threaded
    run answers [false]: the third rule is skipped when "a" is evaluated,
    its entry of the match information stays [false], and below "a" it is
    tested on the path alone, not on its parent directories. *)
Lemma entry_points_disagree :
  (exists patterns,
      NewPatterns ["*"] = Ret patterns
      /\ MatchesOrParentMatches patterns "." = Ret false
      /\ check patterns "." = Ret true)
  /\ (exists patterns,
         NewPatterns ["a"; "!a/b"; "a"] = Ret patterns
         /\ filepath.Clean "a/b/c" = "a/b/c"
         /\ MatchesOrParentMatches patterns "a/b/c" = Ret true
         /\ check patterns "a/b/c" = Ret false).
Proof.
  split.
  - eexists. split; [vm_compute; reflexivity|].
    split; vm_compute; reflexivity.
  - eexists. split; [vm_compute; reflexivity|].
    repeat split; vm_compute; reflexivity.
Qed.

(** C7, amended: for rules whose [Match] returns on every path, as those
    compiled by [NewPatterns] are, and a path that is already clean and is
    not ".", the verdict of the full evaluator equals that of the
    incremental evaluator run with threaded parent state (from the empty
    state at the first segment down to the path), when no rule is an
    exclusion or when the path has no parent directory.  Nothing is said of
    rule lists with exclusions on deeper paths. *)
Theorem entry_points_agree (patterns : list Pattern) (text : string) :
  Forall safe patterns ->
  filepath.Clean text = text ->
  text <> "." ->
  inclusions patterns = true \/ filepath.Dir text = "." ->
  check patterns text = MatchesOrParentMatches patterns text.
Proof.
  intros Hsafe Hclean Hdot Hcase.
  rewrite MatchesOrParentMatches_unfold by (rewrite Hclean; exact Hdot).
  rewrite Hclean.
  destruct (String.eqb_spec (filepath.Dir text) ".") as [Hd|Hd].
  - apply check_without_parent. exact Hd.
  - destruct Hcase as [Hi|Hd']; [|contradiction].
    apply check_inclusions; assumption.
Qed.

Lemma entry_points_agree_witness :
  exists patterns,
    NewPatterns ["*.go"; "docs"; "**/vendor"] = Ret patterns
    /\ check patterns "docs/api/README.md"
       = MatchesOrParentMatches patterns "docs/api/README.md".
Proof.
  eexists. split; [vm_compute; reflexivity|].
  apply entry_points_agree.
  - apply (NewPatterns_safe ["*.go"; "docs"; "**/vendor"]).
    vm_compute. reflexivity.
  - vm_compute. reflexivity.
  - discriminate.
  - left. vm_compute. reflexivity.
Defined.

(** ** Single stars *)

(** C5, as stated, does not hold: the rule "a*b" matches the path "ab",
    in which the star stands for no character. *)
Lemma single_star_matches_nothing :
  ~ (forall p, NewPattern "a*b" = Ret p ->
               Match p "aXb" = Ret true /\ Match p "ab" = Ret false).
Proof.
  intros H.
  assert (E : exists p, NewPattern "a*b" = Ret p /\ Match p "ab" = Ret true).
  { eexists. split; [vm_compute; reflexivity | vm_compute; reflexivity]. }
  destruct E as (p & E1 & E2). destruct (H p E1) as [_ H2].
  rewrite E2 in H2. discriminate H2.
Qed.

(** C5, amended: when the scan reads a star that no star follows, it
    appends the fragment [[^/]*] and sets the match type to Regexp, which is
    then the match type of the pattern; the fragment matches zero or more
    characters other than the separator: the rule "*" matches exactly the
    paths that hold no separator, the empty path among them, and the rule
    "a*b" matches "aXb" and "ab" and does not match "a/b". *)
Theorem single_star_fragment (scan : scanner.Scanner) (i : nat)
    (regStr : string) (matchType : MatchType) :
  scanner.Peek scan <> cp "*" ->
  (Compile_loop (cp "*" :: scan) i regStr matchType
   = Compile_loop scan (S i) (regStr ++ "[^/]*") RegexpMatch
   /\ snd (Compile_loop (cp "*" :: scan) i regStr matchType) = RegexpMatch)
  /\ (NewPattern "*" = Ret rule_star
      /\ forall path, Match rule_star path = Ret (no_separator path))
  /\ (exists p,
         NewPattern "a*b" = Ret p
         /\ Match p "aXb" = Ret true
         /\ Match p "ab" = Ret true
         /\ Match p "a/b" = Ret false).
Proof.
  intros H. split; [|split].
  - rewrite (single_star_step scan i regStr matchType H).
    split; [reflexivity | apply Compile_loop_Regexp].
  - split; [exact rule_star_compiled | exact Match_star].
  - eexists. split; [vm_compute; reflexivity|].
    repeat split; vm_compute; reflexivity.
Qed.

Lemma single_star_fragment_witness :
  Compile_loop (cp "*" :: [cp "b"]) 1 "^a" ExactMatch
  = Compile_loop [cp "b"] 2 ("^a" ++ "[^/]*") RegexpMatch
  /\ snd (Compile_loop (cp "*" :: [cp "b"]) 1 "^a" ExactMatch) = RegexpMatch.
Proof.
  apply (single_star_fragment [cp "b"] 1 "^a" ExactMatch).
  vm_compute. discriminate.
Defined.

(** ** Totality of [Match] *)

(** C10, as stated, does not hold in one part: a pattern of the Suffix
    strategy need not begin with a double star.  The scanner ignores a byte
    order mark at the start of the pattern, so a byte order mark followed
    by "**" is classified Suffix, and its cleaned pattern begins with the
    byte order mark. *)
Lemma suffix_without_leading_double_star :
  ~ (forall (pattern : string) (p : Pattern),
        NewPattern pattern = Ret p -> Kind p = SuffixMatch ->
        String.prefix "**" (CleanedPattern p) = true).
Proof.
  intros H.
  assert (E : NewPattern (utf8bom ++ "**")
              = Ret {| Kind := SuffixMatch; CleanedPattern := utf8bom ++ "**";
                       Dirs := [utf8bom ++ "**"]; Regexp := None;
                       Exclusion := false |})
    by (vm_compute; reflexivity).
  specialize (H _ _ E eq_refl). vm_compute in H. discriminate H.
Qed.

(** C10, amended: [Match] returns on every path for a pattern built by a
    successful [NewPattern].  When the strategy is Suffix the cleaned
    pattern has at least two bytes, so [CleanedPattern[2:]] is in bounds,
    and the runes the scanner reads from it begin with a double star (a
    leading byte order mark is not among them); when the strategy is Prefix
    the cleaned pattern has at least two bytes, so [CleanedPattern[:len-2]]
    is in bounds; an empty suffix satisfies [HasSuffix], so [suffix[0]] and
    [suffix[1:]] are reached only with a suffix that is not empty; and for
    the Unknown strategy [Match] returns false.  Totality needs of the
    pattern only what the scan gives it ([scanned]), whatever its
    expression is. *)
Theorem Match_total (pattern : string) (p : Pattern) :
  NewPattern pattern = Ret p ->
  (forall path, exists b, Match p path = Ret b)
  /\ (Kind p = SuffixMatch ->
      (2 <= len (CleanedPattern p))%Z
      /\ (exists suffix,
             slice (CleanedPattern p) 2 (len (CleanedPattern p)) = Ret suffix)
      /\ exists rest,
           scanner.Init (CleanedPattern p) = cp "*" :: cp "*" :: rest)
  /\ (Kind p = PrefixMatch ->
      (2 <= len (CleanedPattern p))%Z
      /\ exists prefix,
           slice (CleanedPattern p) 0 (len (CleanedPattern p) - 2) = Ret prefix)
  /\ (forall path, strings.HasSuffix path EmptyString = true)
  /\ (forall (q : Pattern) (path : string),
         Kind q = UnknownMatch -> Match q path = Ret false)
  /\ (forall (q : Pattern) (path : string),
         scanned q -> exists b, Match q path = Ret b).
Proof.
  intros H. destruct (scanned_kind _ (NewPattern_scanned _ _ H)) as (HS & HP & _).
  split; [exact (NewPattern_Match_total _ _ H)|].
  split.
  { intros E. destruct (HS E) as [L R]. split; [exact L|]. split; [|exact R].
    rewrite slice_in_range by lia. eauto. }
  split.
  { intros E. specialize (HP E). split; [exact HP|].
    rewrite slice_in_range by lia. eauto. }
  split; [exact HasSuffix_empty|].
  split.
  { intros q path E. unfold Match. rewrite E. reflexivity. }
  intros q path Hq. apply scanned_Match_total. exact Hq.
Qed.

Lemma Match_total_witness :
  exists p,
    NewPattern "**/dir" = Ret p
    /\ forall path, exists b, Match p path = Ret b.
Proof.
  eexists. split; [vm_compute; reflexivity|].
  apply (Match_total "**/dir"). vm_compute. reflexivity.
Defined.

(** * Further properties of the code *)

(** ** The escape table *)

Lemma append_assoc (a b c : string) : (a ++ b) ++ c = a ++ (b ++ c).
Proof. induction a as [|x a IH]; simpl; [reflexivity | rewrite IH; reflexivity]. Qed.

Lemma append_nil_r (a : string) : a ++ EmptyString = a.
Proof. induction a as [|x a IH]; simpl; [reflexivity | rewrite IH; reflexivity]. Qed.

(** [shouldEscape] on the 128 ASCII codes. *)
Lemma shouldEscape_ascii :
  forallb (fun n => Bool.eqb (shouldEscape (Z.of_nat n))
                      (existsb (Z.eqb (Z.of_nat n))
                         (map cp (list_ascii_of_string ".+()$"))))
          (seq 0 128) = true.
Proof. vm_compute. reflexivity. Qed.

(** X1: The runes that [shouldEscape] reports are exactly the dot, the plus,
    the two parentheses and the dollar: the entries that [init] writes for
    the bar and the two braces fall outside the byte they are written to. *)
Theorem shouldEscape_exactly (b : Z) :
  (0 <= b)%Z ->
  shouldEscape b = existsb (Z.eqb b) (map cp (list_ascii_of_string ".+()$")).
Proof.
  intros Hb. destruct (Z.ltb_spec b 128) as [Hlt|Hge].
  - pose proof shouldEscape_ascii as H. rewrite forallb_forall in H.
    specialize (H (Z.to_nat b)). rewrite Z2Nat.id in H by lia.
    apply eqb_prop. apply H. apply in_seq. lia.
  - unfold shouldEscape. unfold utf8.RuneSelf.
    destruct (Z.ltb_spec b 128); [lia|]. simpl.
    repeat match goal with
           | |- context [Z.eqb b ?c] =>
             destruct (Z.eqb_spec b c) as [->|_];
             [exfalso; revert Hge; vm_compute; intros K; apply K;
              reflexivity|]
           end.
    reflexivity.
Qed.

Lemma shouldEscape_exactly_witness :
  shouldEscape (cp "|")
  = existsb (Z.eqb (cp "|")) (map cp (list_ascii_of_string ".+()$")).
Proof. apply shouldEscape_exactly. vm_compute. discriminate. Defined.

(** ** What [Compile] returns *)

Ltac appended IH :=
  match goal with
  | |- context [Compile_loop ?sc ?j ?rs ?m] =>
    let t := fresh "t" in
    let H := fresh "H" in
    destruct (IH sc ltac:(simpl in *; lia) j rs m) as [t H];
    rewrite H; rewrite ?append_assoc; eexists; reflexivity
  end.

(** The loop only appends to the expression. *)
Lemma Compile_loop_appends (n : nat) :
  forall (scan : scanner.Scanner), (List.length scan <= n)%nat ->
  forall (i : nat) (regStr : string) (mt : MatchType),
    exists tail, fst (Compile_loop scan i regStr mt) = regStr ++ tail.
Proof.
  induction n as [|n IH]; intros scan Hlen i regStr mt.
  - destruct scan; [|simpl in Hlen; lia].
    exists EmptyString. simpl. rewrite append_nil_r. reflexivity.
  - destruct scan as [|ch scan1].
    { exists EmptyString. simpl. rewrite append_nil_r. reflexivity. }
    simpl in Hlen. cbn [Compile_loop].
    destruct (ch =? cp "*")%Z.
    + destruct scan1 as [|ch2 scan2]; [appended IH|].
      destruct (ch2 =? cp "*")%Z; [|appended IH].
      destruct scan2 as [|ch3 rest].
      * destruct (MatchType_eqb mt ExactMatch); simpl.
        -- exists EmptyString. rewrite append_nil_r. reflexivity.
        -- eexists; reflexivity.
      * destruct (ch3 =? cp PathSeparator)%Z.
        -- destruct rest as [|ch4 rest'].
           ++ destruct (MatchType_eqb mt ExactMatch); simpl.
              ** exists EmptyString. rewrite append_nil_r. reflexivity.
              ** eexists; reflexivity.
           ++ appended IH.
        -- appended IH.
    + destruct (ch =? cp "?")%Z; [appended IH|].
      destruct (shouldEscape ch); [appended IH|].
      destruct (ch =? cp "\")%Z.
      * destruct scan1 as [|ch2 scan2]; appended IH.
      * destruct ((ch =? cp "[")%Z || (ch =? cp "]")%Z); appended IH.
Qed.

Lemma regexp_Compile_expr (e : string) (re : regexp.Regexp) :
  regexp.Compile e = Ret re -> regexp.expr re = e.
Proof.
  unfold regexp.Compile. destruct (negb (regexp.ValidString e)); [discriminate|].
  destruct (regexp.parse _ _ _ _ _) as [[r rest]| | |]; simpl; try discriminate.
  destruct rest; [|discriminate]. intros H; inversion H; reflexivity.
Qed.

(** X2: What [Compile] returns, by the scan of the pattern.  The scan
    builds its expression from the anchor ^ by appending only, and the
    match type it ends on is never Unknown.  When that type is not Regexp,
    [Compile] returns it with no expression, and no expression is
    compiled.  When it is Regexp, [Compile] returns what [regexp.Compile]
    gives for the scanned expression followed by $, an error as it is; an
    expression that [Compile] returns has the Regexp type and that text as
    its source. *)
Theorem Compile_result (pattern : string) :
  exists body,
    fst (Compile_scan pattern) = "^" ++ body
    /\ snd (Compile_scan pattern) <> UnknownMatch
    /\ (snd (Compile_scan pattern) <> RegexpMatch ->
        Compile pattern = Ret (snd (Compile_scan pattern), None))
    /\ (snd (Compile_scan pattern) = RegexpMatch ->
        Compile pattern
        = (re <- regexp.Compile ("^" ++ body ++ "$") ;;
           Ret (RegexpMatch, Some re)))
    /\ (forall k re,
          Compile pattern = Ret (k, Some re) ->
          k = RegexpMatch /\ regexp.expr re = "^" ++ body ++ "$").
Proof.
  destruct (Compile_loop_appends _ (scanner.Init pattern) (le_n _) 0 "^" ExactMatch)
    as [body Hb].
  fold (Compile_scan pattern) in Hb.
  exists body. split; [exact Hb|].
  assert (Hk : snd (Compile_scan pattern) <> UnknownMatch).
  { pose proof (Compile_scan_kind pattern) as K. cbv zeta in K.
    destruct K as [K|[K|[[K _]|[K _]]]]; rewrite K; discriminate. }
  split; [exact Hk|].
  unfold Compile. destruct (Compile_scan pattern) as [regStr mt].
  cbn [fst snd] in *. subst regStr.
  destruct (MatchType_eqb mt RegexpMatch) eqn:E; cbn [negb].
  - apply MatchType_eqb_eq in E. subst mt.
    rewrite append_assoc. split; [|split].
    + intros C. contradiction C. reflexivity.
    + intros _. reflexivity.
    + intros k re H.
      destruct (regexp.Compile ("^" ++ body ++ "$")) as [r| | |] eqn:Er;
        cbn [bind] in H; inversion H; subst.
      split; [reflexivity | apply (regexp_Compile_expr _ _ Er)].
  - split; [|split].
    + intros _. reflexivity.
    + intros ->. discriminate E.
    + intros k re H. inversion H.
Qed.

Lemma Compile_result_witness :
  exists re,
    Compile "*.go" = Ret (RegexpMatch, Some re)
    /\ regexp.expr re = fst (Compile_scan "*.go") ++ "$".
Proof.
  assert (C : exists re, Compile "*.go" = Ret (RegexpMatch, Some re))
    by (eexists; vm_compute; reflexivity).
  destruct C as [re C]. exists re. split; [exact C|].
  destruct (Compile_result "*.go") as (body & Hb & _ & _ & _ & H).
  destruct (H _ _ C) as [_ Hre]. rewrite Hre, Hb. symmetry. apply append_assoc.
Defined.

(** Plain runes leave the match type as it is. *)
Lemma Compile_loop_plain (scan : scanner.Scanner) :
  forallb plain scan = true ->
  forall (i : nat) (regStr : string) (mt : MatchType),
    snd (Compile_loop scan i regStr mt) = mt.
Proof.
  induction scan as [|ch scan IH]; intros Hp i regStr mt; [reflexivity|].
  simpl in Hp. apply andb_true_iff in Hp. destruct Hp as [Hch Hp].
  unfold plain in Hch. apply negb_true_iff in Hch.
  repeat (apply orb_false_iff in Hch; destruct Hch as [Hch ?]).
  cbn [Compile_loop].
  rewrite Hch.
  match goal with H : (ch =? cp "?")%Z = false |- _ => rewrite H end.
  match goal with H : (ch =? cp "\")%Z = false |- _ => rewrite H end.
  match goal with H : (ch =? cp "[")%Z = false |- _ => rewrite H end.
  match goal with H : (ch =? cp "]")%Z = false |- _ => rewrite H end.
  simpl. destruct (shouldEscape ch); apply IH; assumption.
Qed.

(** ** The match types of [Compile] and what [Match] makes of them *)

Lemma NewPattern_Kind (pattern : string) (p : Pattern) :
  NewPattern pattern = Ret p ->
  Kind p = snd (Compile_loop (scanner.Init (CleanedPattern p)) 0 "^" ExactMatch).
Proof.
  intros H. apply NewPattern_inv in H. apply Compile_inv in H.
  destruct H as [H _]. exact H.
Qed.

(** The loop over plain runes followed by other runes. *)
Lemma Compile_loop_plain_app (lit : list Z) :
  forallb plain lit = true ->
  forall (rest : scanner.Scanner) (i : nat) (regStr : string) (mt : MatchType),
    exists regStr',
      Compile_loop (lit ++ rest)%list i regStr mt
      = Compile_loop rest (i + List.length lit) regStr' mt.
Proof.
  induction lit as [|ch lit IH]; intros Hp rest i regStr mt.
  - exists regStr. simpl. rewrite Nat.add_0_r. reflexivity.
  - simpl in Hp. apply andb_true_iff in Hp. destruct Hp as [Hch Hp].
    unfold plain in Hch. apply negb_true_iff in Hch.
    repeat (apply orb_false_iff in Hch; destruct Hch as [Hch ?]).
    cbn [app Compile_loop].
    rewrite Hch.
    match goal with H : (ch =? cp "?")%Z = false |- _ => rewrite H end.
    match goal with H : (ch =? cp "\")%Z = false |- _ => rewrite H end.
    match goal with H : (ch =? cp "[")%Z = false |- _ => rewrite H end.
    match goal with H : (ch =? cp "]")%Z = false |- _ => rewrite H end.
    cbn [orb List.length]. replace (i + S (List.length lit))%nat
      with (S i + List.length lit)%nat by lia.
    destruct (shouldEscape ch); apply IH; assumption.
Qed.

(** Only the Regexp match type comes with an expression. *)
Lemma Compile_no_expression (pattern : string) (k : MatchType)
    (re : option regexp.Regexp) :
  Compile pattern = Ret (k, re) -> k <> RegexpMatch -> re = None.
Proof.
  unfold Compile. destruct (Compile_scan pattern) as [regStr mt]. cbv zeta.
  destruct (MatchType_eqb mt RegexpMatch) eqn:E; cbn [negb].
  - apply MatchType_eqb_eq in E. subst mt.
    destruct (regexp.Compile (regStr ++ "$")); cbn [bind]; intros H;
      inversion H; subst. intros C. contradiction C. reflexivity.
  - intros H _. inversion H. reflexivity.
Qed.

(** X3: A pattern of plain runes is Exact and matches the paths equal to it. *)
Theorem plain_pattern_exact (pattern : string) (p : Pattern) :
  NewPattern pattern = Ret p ->
  forallb plain (scanner.Init (CleanedPattern p)) = true ->
  Kind p = ExactMatch
  /\ Regexp p = None
  /\ forall path, Match p path = Ret (String.eqb path (CleanedPattern p)).
Proof.
  intros H Hp.
  assert (K : Kind p = ExactMatch).
  { rewrite (NewPattern_Kind _ _ H). apply Compile_loop_plain. exact Hp. }
  split; [exact K|]. split.
  - apply NewPattern_inv in H.
    apply (Compile_no_expression _ _ _ H). rewrite K. discriminate.
  - intros path. unfold Match. rewrite K. reflexivity.
Qed.

Lemma plain_pattern_exact_witness :
  exists p,
    NewPattern "!docs/README.md" = Ret p
    /\ forall path, Match p path = Ret (String.eqb path "docs/README.md").
Proof.
  eexists. split; [vm_compute; reflexivity|].
  apply (plain_pattern_exact "!docs/README.md");
    vm_compute; reflexivity.
Defined.

(** X4: After plain runes, a double star at the end of the pattern, with or
    without a separator behind it, gives the Prefix match type, and the
    pattern matches the paths that begin with the cleaned pattern less its
    last two bytes. *)
Theorem trailing_double_star_prefix (pattern : string) (p : Pattern)
    (lit : list Z) (last : list Z) :
  NewPattern pattern = Ret p ->
  scanner.Init (CleanedPattern p) = (lit ++ cp "*" :: cp "*" :: last)%list ->
  lit <> [] -> forallb plain lit = true ->
  last = [] \/ last = [cp PathSeparator] ->
  Kind p = PrefixMatch
  /\ forall path,
       Match p path
       = Ret (strings.HasPrefix path
                (substring 0 (String.length (CleanedPattern p) - 2)
                   (CleanedPattern p))).
Proof.
  intros H Hinit Hne Hp Hlast.
  assert (K : Kind p = PrefixMatch).
  { rewrite (NewPattern_Kind _ _ H), Hinit.
    destruct (Compile_loop_plain_app lit Hp (cp "*" :: cp "*" :: last) 0 "^"
                ExactMatch) as [regStr' E].
    rewrite E. destruct lit as [|c lit]; [contradiction|]. cbn [List.length Nat.add].
    destruct Hlast as [-> | ->]; reflexivity. }
  split; [exact K|].
  intros path. unfold Match. rewrite K.
  destruct (scanned_kind _ (NewPattern_scanned _ _ H)) as (_ & HP & _).
  specialize (HP K). rewrite slice_in_range by lia. cbn [bind].
  do 2 f_equal. unfold len. f_equal. lia.
Qed.

Lemma trailing_double_star_prefix_witness :
  exists p,
    NewPattern "dir/**" = Ret p
    /\ forall path, Match p path = Ret (strings.HasPrefix path "dir/").
Proof.
  eexists. split; [vm_compute; reflexivity|].
  match goal with
  | |- forall path, Match ?p path = _ =>
    destruct (trailing_double_star_prefix "dir/**" p
                (map cp (list_ascii_of_string "dir/")) []) as [_ M]
  end.
  - vm_compute. reflexivity.
  - vm_compute. reflexivity.
  - discriminate.
  - vm_compute. reflexivity.
  - left. reflexivity.
  - intros path. rewrite M. reflexivity.
Defined.

(** X5: A leading double star followed, after the separator it eats, by plain
    runes only gives the Suffix match type; the pattern matches the paths
    that end with the cleaned pattern less its first two bytes and, when
    these begin with a separator, the path equal to what follows it. *)
Theorem leading_double_star_suffix (pattern : string) (p : Pattern)
    (rest : list Z) :
  NewPattern pattern = Ret p ->
  scanner.Init (CleanedPattern p) = cp "*" :: cp "*" :: rest ->
  forallb plain (eatSeparator rest) = true ->
  Kind p = SuffixMatch
  /\ forall path,
       Match p path
       = Ret (let suffix := substring 2 (String.length (CleanedPattern p) - 2)
                              (CleanedPattern p) in
              strings.HasSuffix path suffix
              || match suffix with
                 | String c name => Ascii.eqb c PathSeparator && String.eqb path name
                 | EmptyString => false
                 end).
Proof.
  intros H Hinit Hp.
  assert (K : Kind p = SuffixMatch).
  { rewrite (NewPattern_Kind _ _ H), Hinit. cbn [Compile_loop].
    change (cp "*" =? cp "*")%Z with true. cbv iota.
    destruct rest as [|c r]; [reflexivity|].
    unfold eatSeparator in Hp.
    destruct (c =? cp PathSeparator)%Z.
    - destruct r as [|c' r']; [reflexivity|].
      cbn [Nat.eqb]. cbv iota beta.
      rewrite Compile_loop_plain; [reflexivity | exact Hp].
    - cbn [Nat.eqb]. cbv iota beta.
      rewrite Compile_loop_plain; [reflexivity | exact Hp]. }
  split; [exact K|].
  intros path. unfold Match. rewrite K.
  destruct (scanned_kind _ (NewPattern_scanned _ _ H)) as (HS & _ & _).
  destruct (HS K) as [L _]. rewrite slice_in_range by lia. cbn [bind].
  replace (Z.to_nat (len (CleanedPattern p) - 2))
    with (String.length (CleanedPattern p) - 2)%nat by (unfold len; lia).
  change (Z.to_nat 2) with 2%nat. cbv zeta.
  set (suffix := substring 2 (String.length (CleanedPattern p) - 2) (CleanedPattern p)).
  destruct (strings.HasSuffix path suffix) eqn:E; [reflexivity|].
  destruct suffix as [|c name] eqn:Es.
  - rewrite HasSuffix_empty in E. discriminate E.
  - unfold index. cbn [Z.leb Z.compare Z.to_nat String.get bind].
    destruct (Ascii.eqb c PathSeparator); [|reflexivity].
    rewrite slice_in_range; [|unfold len; cbn [String.length]; lia ..].
    cbn [bind orb andb]. do 2 f_equal.
    unfold len. cbn [String.length].
    replace (Z.to_nat (Z.of_nat (S (String.length name)) - 1)) with (String.length name) by lia.
    change (Z.to_nat 1) with 1%nat. cbn [substring].
    clear. induction name as [|x name IH]; simpl; [reflexivity|].
    rewrite IH. reflexivity.
Qed.

Lemma leading_double_star_suffix_witness :
  exists p,
    NewPattern "**/foo" = Ret p
    /\ forall path,
         Match p path
         = Ret (strings.HasSuffix path "/foo" || String.eqb path "foo").
Proof.
  eexists. split; [vm_compute; reflexivity|].
  match goal with
  | |- forall path, Match ?p path = _ =>
    destruct (leading_double_star_suffix "**/foo" p
                (map cp (list_ascii_of_string "/foo"))) as [_ M]
  end.
  - vm_compute. reflexivity.
  - vm_compute. reflexivity.
  - vm_compute. reflexivity.
  - intros path. rewrite M. reflexivity.
Defined.

Lemma upgrades_head (ch : Z) (after : list Z) (i : nat) (regStr : string)
    (mt : MatchType) :
  upgrades ch after = true ->
  snd (Compile_loop (ch :: after) i regStr mt) = RegexpMatch.
Proof.
  unfold upgrades. intros H. cbn [Compile_loop].
  destruct (Z.eqb_spec ch (cp "*")) as [->|_]; [discriminate H|].
  destruct (Z.eqb_spec ch (cp "?")) as [->|_]; [apply Compile_loop_Regexp|].
  destruct (Z.eqb_spec ch (cp "[")) as [->|_].
  { change (shouldEscape (cp "[")) with false.
    change (cp "[" =? cp "\")%Z with false. cbv iota. cbn [orb].
    apply Compile_loop_Regexp. }
  destruct (Z.eqb_spec ch (cp "]")) as [->|_].
  { change (shouldEscape (cp "]")) with false.
    change (cp "]" =? cp "\")%Z with false. cbv iota. cbn [orb].
    apply Compile_loop_Regexp. }
  cbn [orb] in H. apply andb_true_iff in H. destruct H as [H1 H2].
  apply Z.eqb_eq in H1. subst ch.
  change (shouldEscape (cp "\")) with false.
  change (cp "\" =? cp "\")%Z with true. cbv iota.
  destruct after as [|c2 after']; [discriminate H2|]. apply Compile_loop_Regexp.
Qed.

Lemma upgrades_not (ch : Z) (after : list Z) (c : Z) :
  upgrades ch after = true ->
  c = cp "*" \/ c = cp PathSeparator -> (ch =? c)%Z = false.
Proof.
  unfold upgrades. intros H Hc.
  destruct (Z.eqb_spec ch c) as [E|]; [|reflexivity]. subst c.
  destruct Hc as [->| ->]; discriminate H.
Qed.

(** A rune that upgrades, wherever it stands in what is left to scan,
    makes the match type Regexp. *)
Lemma Compile_loop_upgrades (n : nat) :
  forall (before : list Z), (List.length before <= n)%nat ->
  forall (ch : Z) (after : list Z) (i : nat) (regStr : string) (mt : MatchType),
    upgrades ch after = true ->
    snd (Compile_loop (before ++ ch :: after)%list i regStr mt) = RegexpMatch.
Proof.
  induction n as [|n IH]; intros before Hlen ch after i regStr mt Hu.
  - destruct before; [|simpl in Hlen; lia]. apply upgrades_head. exact Hu.
  - destruct before as [|c before1]; [apply upgrades_head; exact Hu|].
    cbn [List.length] in Hlen.
    assert (IH' : forall b, (List.length b <= List.length before1)%nat ->
                   forall i regStr mt,
                     snd (Compile_loop (b ++ ch :: after)%list i regStr mt)
                     = RegexpMatch).
    { intros b Hb j r m. apply IH; [lia | exact Hu]. }
    clear IH.
    change ((c :: before1) ++ ch :: after)%list
      with (c :: (before1 ++ ch :: after))%list.
    cbn [Compile_loop].
    destruct (c =? cp "*")%Z.
    + destruct before1 as [|c2 before2].
      * cbn [app]. rewrite (upgrades_not ch after (cp "*") Hu) by auto.
        apply upgrades_head. exact Hu.
      * change ((c2 :: before2) ++ ch :: after)%list
          with (c2 :: (before2 ++ ch :: after))%list. cbv iota.
        destruct (c2 =? cp "*")%Z;
          [|apply (IH' (c2 :: before2)); cbn [List.length]; lia].
        destruct before2 as [|c3 before3].
        -- cbn [app].
           rewrite (upgrades_not ch after (cp PathSeparator) Hu) by auto.
           cbv iota. apply upgrades_head. exact Hu.
        -- change ((c3 :: before3) ++ ch :: after)%list
             with (c3 :: (before3 ++ ch :: after))%list. cbv iota.
           destruct (c3 =? cp PathSeparator)%Z.
           ++ destruct (before3 ++ ch :: after)%list eqn:E;
                [destruct before3; discriminate E|].
              rewrite <- E. cbv iota. apply IH'. cbn [List.length]. lia.
           ++ cbv iota. apply (IH' (c3 :: before3)). cbn [List.length]. lia.
    + destruct (c =? cp "?")%Z; [apply Compile_loop_Regexp|].
      destruct (shouldEscape c); [apply IH'; lia|].
      destruct (c =? cp "\")%Z.
      * destruct before1 as [|c2 before2]; cbn [app]; apply Compile_loop_Regexp.
      * destruct ((c =? cp "[")%Z || (c =? cp "]")%Z);
          [apply Compile_loop_Regexp | apply IH'; lia].
Qed.

(** X6: A pattern with a question mark, a bracket, or a backslash that is not
    its last rune is compiled to an expression, whatever else it holds. *)
Theorem upgrading_runes (pattern : string) (k : MatchType)
    (re : option regexp.Regexp) (before : list Z) (ch : Z) (after : list Z) :
  Compile pattern = Ret (k, re) ->
  scanner.Init pattern = (before ++ ch :: after)%list ->
  upgrades ch after = true ->
  k = RegexpMatch /\ re <> None.
Proof.
  intros H Hs Hu.
  destruct (Compile_inv _ _ _ H) as [Hk Hre].
  assert (K : k = RegexpMatch).
  { rewrite Hk. unfold Compile_scan. rewrite Hs.
    apply (Compile_loop_upgrades (List.length before) before (le_n _)). exact Hu. }
  split; [exact K|].
  destruct (Hre K) as [r ->]. discriminate.
Qed.

Lemma upgrading_runes_witness :
  exists re,
    Compile "**/file?.txt" = Ret (RegexpMatch, Some re).
Proof.
  assert (C : exists k re, Compile "**/file?.txt" = Ret (k, re)).
  { eexists. eexists. vm_compute. reflexivity. }
  destruct C as (k & re & C).
  destruct (upgrading_runes "**/file?.txt" k re
              (map cp (list_ascii_of_string "**/file")) (cp "?")
              (map cp (list_ascii_of_string ".txt")) C) as [K R].
  - vm_compute. reflexivity.
  - vm_compute. reflexivity.
  - subst k. destruct re as [r|]; [|contradiction R; reflexivity].
    exists r. exact C.
Defined.

(** ** [NewPattern] *)

Lemma substring_all (s : string) : substring 0 (String.length s) s = s.
Proof. induction s as [|c s IH]; simpl; [reflexivity | rewrite IH; reflexivity]. Qed.

Lemma benign_bind {A B : Type} (x : outcome A) (f : A -> outcome B) :
  benign x -> (forall a, benign (f a)) -> benign (bind x f).
Proof. destruct x; simpl; auto. Qed.

Lemma escaped_benign (c : Z) : benign (regexp.escaped c).
Proof.
  unfold regexp.escaped. destruct (c <? utf8.RuneSelf)%Z; [|reflexivity].
  destruct (regexp.isalnum c); exact I.
Qed.

Lemma parseClassChar_benign (t : list Z) : benign (regexp.parseClassChar t).
Proof.
  unfold regexp.parseClassChar. destruct t as [|c t1]; [reflexivity|].
  destruct (c =? cp "\")%Z; [|exact I].
  destruct t1 as [|c2 t2]; [reflexivity|].
  apply benign_bind; [apply escaped_benign | intros; exact I].
Qed.

Lemma parseClassItems_benign (fuel : nat) :
  forall t first acc, benign (regexp.parseClassItems fuel t first acc).
Proof.
  induction fuel as [|fuel IH]; intros t first acc; [exact I|].
  cbn [regexp.parseClassItems]. destruct t as [|c t1]; [reflexivity|].
  destruct ((c =? cp "]")%Z && negb first); [exact I|].
  destruct ((c =? cp "[")%Z && (scanner.Peek t1 =? cp ":")%Z); [exact I|].
  apply benign_bind; [apply parseClassChar_benign|].
  intros [lo t2]. destruct t2 as [|d [|e t3]]; try apply IH.
  destruct ((d =? cp "-")%Z && negb (e =? cp "]")%Z); [|apply IH].
  apply benign_bind; [apply parseClassChar_benign|].
  intros [hi t4]. destruct (hi <? lo)%Z; [reflexivity | apply IH].
Qed.

Lemma parseClass_benign (t : list Z) : benign (regexp.parseClass t).
Proof.
  unfold regexp.parseClass.
  destruct (match t with
            | [] => (false, t)
            | c :: t' => if (c =? cp "^")%Z then (true, t') else (false, t)
            end) as [negated t1].
  apply benign_bind; [apply parseClassItems_benign|].
  intros [ranges rest]. exact I.
Qed.

Lemma parse_benign (fuel : nat) :
  forall t alts seq repeated, benign (regexp.parse fuel t alts seq repeated).
Proof.
  induction fuel as [|fuel IH]; intros t alts seq repeated; [exact I|].
  cbn [regexp.parse]. destruct t as [|c t1]; [exact I|].
  destruct (c =? cp ")")%Z; [exact I|].
  destruct (c =? cp "(")%Z.
  { destruct (scanner.Peek t1 =? cp "?")%Z; [exact I|].
    apply benign_bind; [apply IH|].
    intros [g rest]. destruct rest; [reflexivity | apply IH]. }
  destruct (c =? cp "|")%Z; [apply IH|].
  destruct (regexp.is_repetition c).
  { destruct repeated; [reflexivity|].
    destruct seq; [reflexivity | apply IH]. }
  destruct (c =? cp "[")%Z.
  { apply benign_bind; [apply parseClass_benign|].
    intros [cls rest]. apply IH. }
  destruct (c =? cp "\")%Z.
  { destruct t1 as [|c2 t2]; [reflexivity|].
    apply benign_bind; [apply escaped_benign | intros; apply IH]. }
  destruct (c =? cp ".")%Z; [apply IH|].
  destruct (c =? cp "^")%Z; [apply IH|].
  destruct (c =? cp "$")%Z; [apply IH|].
  destruct ((c =? cp "{")%Z && _); [exact I | apply IH].
Qed.

Lemma regexp_Compile_benign (e : string) : benign (regexp.Compile e).
Proof.
  unfold regexp.Compile. destruct (negb (regexp.ValidString e)); [reflexivity|].
  apply benign_bind; [apply parse_benign|].
  intros [re rest]. destruct rest; [exact I | reflexivity].
Qed.

Lemma Compile_benign (pattern : string) : benign (Compile pattern).
Proof.
  unfold Compile. destruct (Compile_scan pattern) as [regStr mt].
  destruct (negb (MatchType_eqb mt RegexpMatch)); [exact I|].
  apply benign_bind; [apply regexp_Compile_benign | intros; exact I].
Qed.

Lemma slice_tail (c : ascii) (s : string) :
  slice (String c s) 1 (len (String c s)) = Ret s.
Proof.
  rewrite slice_in_range by (unfold len; cbn [String.length]; lia).
  unfold len. cbn [String.length].
  replace (Z.to_nat (Z.of_nat (S (String.length s)) - 1)) with (String.length s)
    by lia.
  change (Z.to_nat 1) with 1%nat. cbn [substring].
  rewrite substring_all. reflexivity.
Qed.

(** [NewPattern] by the cases of its input. *)
Lemma NewPattern_cases (pattern : string) :
  NewPattern pattern =
  match pattern with
  | EmptyString => Panics
  | String c0 rest =>
    if Ascii.eqb c0 "!" then
      match rest with
      | EmptyString => Fail ErrIllegalExclusion
      | String _ _ =>
        y <- Compile rest ;;
        Ret {| Kind := fst y; CleanedPattern := rest;
               Dirs := strings.Split rest PathSeparator;
               Regexp := snd y; Exclusion := true |}
      end
    else
      y <- Compile pattern ;;
      Ret {| Kind := fst y; CleanedPattern := pattern;
             Dirs := strings.Split pattern PathSeparator;
             Regexp := snd y; Exclusion := false |}
  end.
Proof.
  destruct pattern as [|c0 rest]; [reflexivity|].
  unfold NewPattern. cbn [index Z.leb Z.compare Z.to_nat String.get bind].
  destruct (Ascii.eqb c0 "!").
  - destruct rest as [|c1 rest']; [reflexivity|].
    change (len (String c0 (String c1 rest')) =? 1)%Z
      with (Z.of_nat (S (S (String.length rest'))) =? 1)%Z.
    destruct (Z.eqb_spec (Z.of_nat (S (S (String.length rest')))) 1); [lia|].
    rewrite slice_tail. cbn [bind].
    destruct (Compile (String c1 rest')) as [[k re]| | |]; reflexivity.
  - cbn [bind].
    destruct (Compile (String c0 rest)) as [[k re]| | |]; reflexivity.
Qed.

(** X7: [NewPattern] at its edges: it panics exactly on the empty pattern and
    returns the error of the illegal exclusion exactly on "!". *)
Theorem NewPattern_edges (pattern : string) :
  (NewPattern pattern = Panics <-> pattern = EmptyString)
  /\ (NewPattern pattern = Fail ErrIllegalExclusion <-> pattern = "!").
Proof.
  rewrite NewPattern_cases.
  destruct pattern as [|c0 rest].
  { split; split; intros H; try reflexivity; discriminate H. }
  destruct (Ascii.eqb_spec c0 "!") as [->|Hc].
  - destruct rest as [|c1 rest'].
    { split; split; intros H; try reflexivity; discriminate H. }
    pose proof (Compile_benign (String c1 rest')) as B.
    destruct (Compile (String c1 rest')) as [[k re]| | |]; simpl in *;
      split; split; intros H; try discriminate H; try contradiction.
    inversion H; congruence.
  - pose proof (Compile_benign (String c0 rest)) as B.
    destruct (Compile (String c0 rest)) as [[k re]| | |]; simpl in *;
      split; split; intros H; try discriminate H; try contradiction;
      inversion H; congruence.
Qed.

(** X8: What a successful [NewPattern] returns: the pattern is the cleaned
    pattern behind the exclusion mark when there is one, the cleaned pattern
    is not empty, and the segments are those of the cleaned pattern. *)
Theorem NewPattern_parts (pattern : string) (p : Pattern) :
  NewPattern pattern = Ret p ->
  pattern = (if Exclusion p then "!" else EmptyString) ++ CleanedPattern p
  /\ CleanedPattern p <> EmptyString
  /\ Dirs p = strings.Split (CleanedPattern p) PathSeparator
  /\ Compile (CleanedPattern p) = Ret (Kind p, Regexp p).
Proof.
  rewrite NewPattern_cases.
  destruct pattern as [|c0 rest]; [discriminate|].
  destruct (Ascii.eqb_spec c0 "!") as [->|Hc].
  - destruct rest as [|c1 rest']; [discriminate|].
    destruct (Compile (String c1 rest')) as [[k re]| | |] eqn:E; cbn [bind];
      try discriminate.
    intros H; inversion H; subst; cbn.
    repeat split; [discriminate | exact E].
  - destruct (Compile (String c0 rest)) as [[k re]| | |] eqn:E; cbn [bind];
      try discriminate.
    intros H; inversion H; subst; cbn.
    repeat split; [discriminate | exact E].
Qed.

Lemma NewPattern_parts_witness :
  exists p,
    NewPattern "!docs/*.md" = Ret p
    /\ "!docs/*.md" = (if Exclusion p then "!" else EmptyString) ++ CleanedPattern p.
Proof.
  eexists. split; [vm_compute; reflexivity|].
  apply (NewPattern_parts "!docs/*.md"). vm_compute. reflexivity.
Defined.

(** ** The verdict of the full evaluator *)

Lemma find_app {A : Type} (f : A -> bool) (l1 l2 : list A) :
  find f (l1 ++ l2)%list
  = match find f l1 with
    | Some x => Some x
    | None => find f l2
    end.
Proof.
  induction l1 as [|x l1 IH]; simpl; [reflexivity|].
  destruct (f x); [reflexivity | exact IH].
Qed.

Lemma fold_decide (hits : Pattern -> bool) (patterns : list Pattern) :
  forall matched,
    fold_left (decide hits) patterns matched
    = match find hits (rev patterns) with
      | Some rule => negb (Exclusion rule)
      | None => matched
      end.
Proof.
  induction patterns as [|p rest IH]; intros matched; [reflexivity|].
  cbn [fold_left rev]. rewrite IH, find_app. cbn [find].
  destruct (find hits (rev rest)); [reflexivity|].
  unfold decide. destruct (hits p); reflexivity.
Qed.

(** The loop of the full evaluator computes the verdict rule by rule; a
    skipped rule could not have changed it. *)
Lemma full_loop_decide (file parentPath : string) (dirs : list string) :
  forall (patterns : list Pattern) (matched : bool),
    Forall safe patterns ->
    MatchesOrParentMatches_loop patterns file parentPath dirs matched
    = Ret (fold_left (decide (hit file parentPath dirs)) patterns matched).
Proof.
  induction patterns as [|p rest IH]; intros matched Hs; [reflexivity|].
  inversion Hs as [|? ? Hp Hrest]; subst.
  cbn [MatchesOrParentMatches_loop fold_left]. unfold decide at 2.
  destruct (Bool.eqb (Exclusion p) matched) eqn:E; cbn [negb].
  - rewrite matchOrParents_safe by assumption. cbn [bind].
    apply IH. assumption.
  - rewrite IH by assumption. f_equal. f_equal.
    destruct (hit file parentPath dirs p); [|reflexivity].
    destruct (Exclusion p), matched; simpl in *; congruence.
Qed.

(** X9: Last match wins in the full evaluator. *)
Theorem last_match_wins (patterns : list Pattern) (file : string) :
  Forall safe patterns ->
  filepath.Clean file <> "." ->
  MatchesOrParentMatches patterns file
  = Ret (decision
           (hit (filepath.Clean file) (filepath.Dir (filepath.Clean file))
              (strings.Split (filepath.Dir (filepath.Clean file)) PathSeparator))
           patterns).
Proof.
  intros Hs Hc. rewrite MatchesOrParentMatches_unfold by assumption.
  rewrite full_loop_decide by assumption. rewrite fold_decide. reflexivity.
Qed.

Lemma last_match_wins_witness :
  exists patterns,
    NewPatterns ["*.go"; "!fileutils.go"; "docs"] = Ret patterns
    /\ MatchesOrParentMatches patterns "pkg/fileutils.go"
       = Ret (decision
                (hit (filepath.Clean "pkg/fileutils.go")
                   (filepath.Dir (filepath.Clean "pkg/fileutils.go"))
                   (strings.Split (filepath.Dir (filepath.Clean "pkg/fileutils.go"))
                      PathSeparator))
                patterns).
Proof.
  eexists. split; [vm_compute; reflexivity|].
  apply last_match_wins.
  - apply (NewPatterns_safe ["*.go"; "!fileutils.go"; "docs"]).
    vm_compute. reflexivity.
  - vm_compute. discriminate.
Defined.

(** The loop of the full evaluator over exclusion rules while nothing has
    matched skips them all. *)
Lemma exclusions_loop (file parentPath : string) (dirs : list string) :
  forall patterns,
    forallb Exclusion patterns = true ->
    MatchesOrParentMatches_loop patterns file parentPath dirs false = Ret false.
Proof.
  induction patterns as [|p rest IH]; intros H; [reflexivity|].
  simpl in H. apply andb_true_iff in H. destruct H as [Hp H].
  cbn [MatchesOrParentMatches_loop]. rewrite Hp. simpl. apply IH. exact H.
Qed.

(** X10: Rules that are all exclusions match no path, in the full evaluator and
    in the incremental one without parent state, and none of them is
    evaluated. *)
Theorem exclusions_never_match (patterns : list Pattern) (file : string) :
  forallb Exclusion patterns = true ->
  MatchesOrParentMatches patterns file = Ret false
  /\ verdict (MatchesUsingParentResults patterns file []) = Ret false.
Proof.
  intros H. split.
  - unfold MatchesOrParentMatches.
    destruct (String.eqb (filepath.Clean file) "."); [reflexivity|].
    apply exclusions_loop. exact H.
  - unfold MatchesUsingParentResults, filepath.FromSlash. cbn [List.length Nat.eqb negb andb].
    rewrite zero_state_loop. apply exclusions_loop. exact H.
Qed.

Lemma exclusions_never_match_witness :
  MatchesOrParentMatches [probe true; probe true] "a/b" = Ret false
  /\ verdict (MatchesUsingParentResults [probe true; probe true] "a/b" [])
     = Ret false.
Proof. apply exclusions_never_match. reflexivity. Defined.

(** X11: Without parent state, on a path that is clean and is not ".", the
    incremental evaluator gives the verdict of the full evaluator. *)
Theorem no_parent_state_is_full (patterns : list Pattern) (file : string) :
  filepath.Clean file = file -> file <> "." ->
  verdict (MatchesUsingParentResults patterns file [])
  = MatchesOrParentMatches patterns file.
Proof.
  intros Hc Hd.
  rewrite MatchesOrParentMatches_unfold by (rewrite Hc; exact Hd).
  rewrite Hc. unfold MatchesUsingParentResults, filepath.FromSlash.
  cbn [List.length Nat.eqb negb andb]. apply zero_state_loop.
Qed.

Lemma no_parent_state_is_full_witness :
  exists patterns,
    NewPatterns ["**"; "!util/docker/web"; "util/docker/web/foo"] = Ret patterns
    /\ verdict (MatchesUsingParentResults patterns "util/docker/web/foo" [])
       = MatchesOrParentMatches patterns "util/docker/web/foo".
Proof.
  eexists. split; [vm_compute; reflexivity|].
  apply no_parent_state_is_full; [vm_compute; reflexivity | discriminate].
Defined.

(** ** The incremental evaluator with the state of a parent *)

Lemma store_length {A : Type} (l : list A) :
  forall i v, List.length (store l i v) = List.length l.
Proof.
  induction l as [|h l IH]; intros [|i] v; simpl; auto.
Qed.

(** The loop of the incremental evaluator panics or returns match
    information of the length it started with. *)
Lemma incremental_loop_outcome (file : string) (pm : list bool) :
  forall (rest : list Pattern) (i : nat) (matched : bool) (info : list bool),
    MatchesUsingParentResults_loop rest i file pm matched info = Panics
    \/ exists v info',
         MatchesUsingParentResults_loop rest i file pm matched info = Ret (v, info')
         /\ List.length info' = List.length info.
Proof.
  induction rest as [|p rest IH]; intros i matched info.
  - right. exists matched, info. split; reflexivity.
  - cbn [MatchesUsingParentResults_loop].
    assert (A : (if negb (List.length pm =? 0)%nat then at_index pm i else Ret false)
                = Panics
                \/ exists b, (if negb (List.length pm =? 0)%nat
                              then at_index pm i else Ret false) = Ret b).
    { destruct (negb (List.length pm =? 0)%nat); [|eauto].
      unfold at_index. destruct (nth_error pm i); eauto. }
    destruct A as [-> | [b ->]]; [left; reflexivity|]. cbn [bind].
    destruct (negb b && negb (Bool.eqb (Exclusion p) matched)); [apply IH|].
    match goal with
    | |- context [bind ?x _] =>
      assert (B : x = Panics \/ exists m, x = Ret m)
    end.
    { destruct (negb b); [|eauto].
      destruct (Match_returns_or_panics p file) as [[m ->]| ->]; [|left; reflexivity].
      cbn [bind].
      destruct (negb m && (List.length pm =? 0)%nat); [|eauto].
      destruct (negb (String.eqb (filepath.Dir file) ".")); [|eauto].
      destruct (scanParents_returns_or_panics p
                  (strings.Split (filepath.Dir file) PathSeparator)
                  (List.length (strings.Split (filepath.Dir file) PathSeparator)) 0)
        as [[h ->]| ->]; eauto. }
    destruct B as [-> | [m ->]]; [left; reflexivity|]. cbn [bind].
    destruct (IH (S i) (if m then negb (Exclusion p) else matched) (store info i m))
      as [E | (v & info' & E & L)]; [left; exact E|].
    right. exists v, info'. split; [exact E|]. rewrite L. apply store_length.
Qed.

(** X12: The error of [MatchesUsingParentResults] is that of a parent state of
    the wrong length: it is returned exactly when the state is not empty
    and has not one entry for each rule; and the match information returned
    has one entry for each rule. *)
Theorem parent_state_length (patterns : list Pattern) (file : string)
    (parentMatched : list bool) :
  (forall e, MatchesUsingParentResults patterns file parentMatched = Fail e <->
             e = ErrWrongParentMatched
             /\ parentMatched <> []
             /\ List.length parentMatched <> List.length patterns)
  /\ (forall v info,
         MatchesUsingParentResults patterns file parentMatched = Ret (v, info) ->
         List.length info = List.length patterns).
Proof.
  unfold MatchesUsingParentResults.
  destruct (Nat.eqb_spec (List.length parentMatched) 0) as [Hz|Hz];
    [|destruct (Nat.eqb_spec (List.length parentMatched) (List.length patterns))
        as [Hl|Hl]]; cbn [negb andb].
  1, 2: destruct (incremental_loop_outcome (filepath.FromSlash file) parentMatched
                    patterns 0 false (repeat false (List.length patterns)))
      as [E | (v & info' & E & L)]; rewrite E; (split;
      [ intros e; split;
        [ intros H; discriminate H
        | intros (_ & Hne & Hlen); exfalso;
          try (apply Hne; destruct parentMatched; [reflexivity | discriminate Hz]);
          try (apply Hlen; exact Hl) ]
      | intros v0 info0 H; try discriminate H; inversion H; subst;
        rewrite L; apply repeat_length ]).
  split.
  - intros e. split.
    + intros H. inversion H. repeat split; auto.
      intros ->. apply Hz. reflexivity.
    + intros (-> & _ & _). reflexivity.
  - intros v info H. discriminate H.
Qed.

Lemma parent_state_length_witness :
  exists patterns,
    NewPatterns ["docs"; "!docs/README.md"] = Ret patterns
    /\ MatchesUsingParentResults patterns "docs/guide.md" [true]
       = Fail ErrWrongParentMatched
    /\ exists matched matchInfo,
         MatchesUsingParentResults patterns "docs/guide.md" []
         = Ret (matched, matchInfo)
         /\ List.length matchInfo = List.length patterns.
Proof.
  eexists. split; [vm_compute; reflexivity|].
  match goal with
  | |- MatchesUsingParentResults ?ps _ _ = _ /\ _ =>
    destruct (parent_state_length ps "docs/guide.md" [true]) as [F _];
    destruct (parent_state_length ps "docs/guide.md" []) as [_ L]
  end.
  split.
  - apply F. split; [reflexivity|]. split; discriminate.
  - eexists. eexists. split; [vm_compute; reflexivity|].
    apply (L true). vm_compute. reflexivity.
Defined.

Lemma levelAll_length (patterns : list Pattern) (file : string) :
  forall bits matched,
    List.length bits = List.length patterns ->
    List.length (snd (levelAll patterns bits file matched)) = List.length patterns.
Proof.
  induction patterns as [|p rest IH]; intros [|b bits] matched H; simpl in *;
    try reflexivity; try discriminate.
  match goal with
  | |- context [levelAll rest bits file ?m] =>
    specialize (IH bits m); destruct (levelAll rest bits file m) as [v l]
  end.
  simpl in *. rewrite IH; lia.
Qed.

Lemma levelAll_verdict (patterns : list Pattern) (file : string) :
  forall bits matched,
    fst (levelAll patterns bits file matched)
    = fold_left (fun m pb => if hitWithParent file pb
                             then negb (Exclusion (fst pb)) else m)
        (combine patterns bits) matched.
Proof.
  induction patterns as [|p rest IH]; intros [|b bits] matched; try reflexivity.
  cbn [levelAll combine fold_left].
  match goal with
  | |- context [levelAll rest bits file ?m] =>
    specialize (IH bits m); destruct (levelAll rest bits file m) as [v l]
  end.
  cbn [fst] in *. rewrite IH. f_equal. unfold hitWithParent. cbn [fst snd].
  destruct b, (Exclusion p), matched, (matchb p file); reflexivity.
Qed.

Lemma levelAll_entries (patterns : list Pattern) (file : string) :
  forall bits matched,
    List.length bits = List.length patterns ->
    Forall2 (fun entry pb =>
               (snd pb = true -> entry = true)
               /\ (entry = true -> hitWithParent file pb = true))
      (snd (levelAll patterns bits file matched)) (combine patterns bits).
Proof.
  induction patterns as [|p rest IH]; intros [|b bits] matched H;
    try discriminate H; [constructor|].
  cbn [levelAll combine]. cbn [List.length] in H.
  - match goal with
    | |- context [levelAll rest bits file ?m] =>
      specialize (IH bits m); destruct (levelAll rest bits file m) as [v l]
    end.
    cbn [snd] in *. constructor; [|apply IH; lia].
    unfold hitWithParent. cbn [fst snd]. split.
    + intros ->. reflexivity.
    + destruct b, (matchb p file); simpl; auto.
      rewrite andb_false_r. auto.
Qed.

(** The loop of the incremental evaluator with the state of a parent, over
    rules whose [Match] returns. *)
Lemma incremental_loop_levelAll (file : string) (pm : list bool) :
  forall (rest : list Pattern) (i : nat) (matched : bool) (info : list bool),
    Forall safe rest -> pm <> [] ->
    List.length (skipn i pm) = List.length rest ->
    skipn i info = repeat false (List.length rest) ->
    MatchesUsingParentResults_loop rest i file pm matched info
    = Ret (fst (levelAll rest (skipn i pm) file matched),
           (firstn i info ++ snd (levelAll rest (skipn i pm) file matched))%list).
Proof.
  induction rest as [|p rest IH]; intros i matched info Hs Hne Hlen Hinfo.
  - cbn [MatchesUsingParentResults_loop levelAll fst snd].
    rewrite <- (firstn_skipn i info) at 1. cbn [List.length repeat] in Hinfo.
    rewrite Hinfo. reflexivity.
  - inversion Hs as [|? ? Hp Hrest]; subst.
    cbn [List.length repeat] in Hinfo.
    destruct (skipn_cons_inv info i false _ Hinfo) as (Hinfo' & Hfirst & _).
    destruct (skipn i pm) as [|b bits'] eqn:E; [discriminate Hlen|].
    destruct (skipn_cons_inv pm i b bits' E) as (E1 & _ & E3).
    cbn [List.length] in Hlen.
    assert (Hlen' : List.length (skipn (S i) pm) = List.length rest)
      by (rewrite E1; lia).
    assert (Hz : (List.length pm =? 0)%nat = false)
      by (destruct pm; [contradiction | reflexivity]).
    cbn [MatchesUsingParentResults_loop levelAll]. rewrite Hz. cbn [negb].
    unfold at_index. rewrite E3. cbn [bind].
    destruct b; cbn [negb andb orb bind].
    + (* the parent matched the rule *)
      rewrite (IH (S i) (negb (Exclusion p)) (store info i true) Hrest Hne Hlen').
      * rewrite E1.
        destruct (levelAll rest bits' file (negb (Exclusion p))) as [v l].
        cbn [fst snd].
        rewrite (store_firstn info i true false _ Hinfo), <- app_assoc.
        reflexivity.
      * rewrite store_skipn. exact Hinfo'.
    + destruct (Bool.eqb (Exclusion p) matched); cbn [negb andb].
      * rewrite Hp. cbn [bind]. rewrite andb_false_r. cbn [bind].
        rewrite (IH (S i) _ (store info i (matchb p file)) Hrest Hne Hlen').
        -- rewrite E1.
           destruct (levelAll rest bits' file
                       (if matchb p file then negb (Exclusion p) else matched))
             as [v l].
           cbn [fst snd].
           rewrite (store_firstn info i _ false _ Hinfo), <- app_assoc.
           reflexivity.
        -- rewrite store_skipn. exact Hinfo'.
      * (* skipped *)
        rewrite (IH (S i) matched info Hrest Hne Hlen' Hinfo'). rewrite E1.
        destruct (levelAll rest bits' file matched) as [v l]. cbn [fst snd].
        rewrite Hfirst, <- app_assoc. reflexivity.
Qed.

Lemma fold_last_hit {A : Type} (hits : A -> bool) (value : A -> bool)
    (l : list A) :
  forall matched,
    fold_left (fun m x => if hits x then value x else m) l matched
    = match find hits (rev l) with
      | Some x => value x
      | None => matched
      end.
Proof.
  induction l as [|x l IH]; intros matched; [reflexivity|].
  cbn [fold_left rev]. rewrite IH, find_app. cbn [find].
  destruct (find hits (rev l)); [reflexivity|].
  destruct (hits x); reflexivity.
Qed.

(** One call of the incremental evaluator with the state of a parent. *)
Lemma incremental_with_state (patterns : list Pattern) (file : string)
    (pm : list bool) :
  Forall safe patterns -> pm <> [] ->
  List.length pm = List.length patterns ->
  MatchesUsingParentResults patterns file pm
  = Ret (levelAll patterns pm file false).
Proof.
  intros Hs Hne Hlen.
  unfold MatchesUsingParentResults, filepath.FromSlash.
  rewrite Hlen, Nat.eqb_refl, andb_false_r.
  rewrite (incremental_loop_levelAll file pm patterns 0 false _ Hs Hne).
  - cbn [skipn firstn app]. destruct (levelAll patterns pm file false).
    reflexivity.
  - exact Hlen.
  - reflexivity.
Qed.

(** X13: With the state of the parent directory, the incremental evaluator
    returns, on rules whose [Match] returns; a rule hits when the parent
    matched it or it matches the file, and the last rule that hits decides
    the verdict; the entry of a rule in the match information returned is
    set when the parent matched the rule, and only when the rule hits. *)
Theorem parent_state_inherited (patterns : list Pattern) (file : string)
    (parentMatched : list bool) :
  Forall safe patterns ->
  parentMatched <> [] ->
  List.length parentMatched = List.length patterns ->
  exists matchInfo,
    MatchesUsingParentResults patterns file parentMatched
    = Ret (match find (hitWithParent file) (rev (combine patterns parentMatched)) with
           | Some rule => negb (Exclusion (fst rule))
           | None => false
           end, matchInfo)
    /\ Forall2 (fun entry rule =>
                  (snd rule = true -> entry = true)
                  /\ (entry = true -> hitWithParent file rule = true))
         matchInfo (combine patterns parentMatched).
Proof.
  intros Hs Hne Hlen.
  exists (snd (levelAll patterns parentMatched file false)). split.
  - rewrite (incremental_with_state patterns file parentMatched Hs Hne Hlen).
    rewrite <- fold_last_hit, <- levelAll_verdict.
    destruct (levelAll patterns parentMatched file false). reflexivity.
  - apply levelAll_entries. exact Hlen.
Qed.

Lemma parent_state_inherited_witness :
  exists patterns matchInfo,
    NewPatterns ["docs"; "!docs/README.md"] = Ret patterns
    /\ MatchesUsingParentResults patterns "docs/guide.md" [true; false]
       = Ret (true, matchInfo)
    /\ Forall2 (fun entry rule =>
                  (snd rule = true -> entry = true)
                  /\ (entry = true -> hitWithParent "docs/guide.md" rule = true))
         matchInfo (combine patterns [true; false]).
Proof.
  eexists.
  match goal with
  | |- exists matchInfo, NewPatterns ?rules = Ret ?ps /\ _ =>
    assert (E : NewPatterns rules = Ret ps) by (vm_compute; reflexivity);
    destruct (parent_state_inherited ps "docs/guide.md" [true; false]
                (NewPatterns_safe rules ps E))
      as (matchInfo & M & F);
      [discriminate | reflexivity |];
    exists matchInfo; split; [exact E|]; split; [|exact F]
  end.
  rewrite M. vm_compute. reflexivity.
Defined.

Lemma Clean_not_empty (path : string) : filepath.Clean path <> EmptyString.
Proof.
  unfold filepath.Clean. destruct path as [|c0 rest]; [discriminate|].
  cbv zeta. destruct (Ascii.eqb c0 filepath.Separator); [discriminate|].
  match goal with
  | |- (if String.eqb ?b EmptyString then _ else _) <> _ =>
    destruct (String.eqb_spec b EmptyString) as [_|N]; [discriminate | exact N]
  end.
Qed.

(** ** [filepath.Match] returns *)

Lemma length_substring (s : string) :
  forall n m, String.length (substring n m s) = Nat.min m (String.length s - n).
Proof.
  induction s as [|c s IH]; intros n m.
  - destruct n, m; reflexivity.
  - destruct n as [|n].
    + destruct m as [|m]; [reflexivity|]. cbn [substring String.length].
      rewrite IH. rewrite Nat.sub_0_r. reflexivity.
    + cbn [substring String.length]. rewrite IH. reflexivity.
Qed.

Lemma length_drop (n : nat) (s : string) :
  String.length (filepath.drop n s) = (String.length s - n)%nat.
Proof. unfold filepath.drop. rewrite length_substring. lia. Qed.

Lemma DecodeRuneInString_width (c : ascii) (s : string) :
  (1 <= snd (utf8.DecodeRuneInString (String c s)))%nat.
Proof.
  unfold utf8.DecodeRuneInString.
  repeat match goal with
         | |- context [if ?b then _ else _] => destruct b
         | |- context [match ?x with _ => _ end] => destruct x
         end; cbn [snd]; lia.
Qed.

Lemma getEsc_decided (chunk : string) :
  filepath.getEsc chunk = Fail ErrBadPattern
  \/ exists r nchunk,
       filepath.getEsc chunk = Ret (r, nchunk)
       /\ (0 < String.length nchunk < String.length chunk)%nat.
Proof.
  unfold filepath.getEsc. destruct chunk as [|c t]; [left; reflexivity|].
  destruct (Ascii.eqb c "-" || Ascii.eqb c "]"); [left; reflexivity|].
  assert (G : forall chunk',
             (String.length chunk' <= String.length (String c t))%nat ->
             match chunk' with
             | EmptyString => Fail ErrBadPattern
             | String _ _ =>
               let '(r, n) := utf8.DecodeRuneInString chunk' in
               let nchunk := filepath.drop n chunk' in
               if ((r =? utf8.RuneError)%Z && (n =? 1)%nat)
                  || String.eqb nchunk EmptyString
               then Fail ErrBadPattern
               else Ret (r, nchunk)
             end = Fail ErrBadPattern
             \/ exists r nchunk,
                 match chunk' with
                 | EmptyString => Fail ErrBadPattern
                 | String _ _ =>
                   let '(r, n) := utf8.DecodeRuneInString chunk' in
                   let nchunk := filepath.drop n chunk' in
                   if ((r =? utf8.RuneError)%Z && (n =? 1)%nat)
                      || String.eqb nchunk EmptyString
                   then Fail ErrBadPattern
                   else Ret (r, nchunk)
                 end = Ret (r, nchunk)
                 /\ (0 < String.length nchunk
                     < String.length (String c t))%nat).
  { intros [|c' t'] Hle; [left; reflexivity|].
    pose proof (DecodeRuneInString_width c' t') as W.
    destruct (utf8.DecodeRuneInString (String c' t')) as [r n]. cbn [snd] in W.
    cbv zeta.
    destruct (((r =? utf8.RuneError)%Z && (n =? 1)%nat)
              || String.eqb (filepath.drop n (String c' t')) EmptyString) eqn:E;
      [left; reflexivity|].
    right. exists r, (filepath.drop n (String c' t')). split; [reflexivity|].
    apply orb_false_iff in E. destruct E as [_ E].
    rewrite length_drop.
    destruct (filepath.drop n (String c' t')) eqn:D; [discriminate E|].
    pose proof (length_drop n (String c' t')) as L. rewrite D in L.
    cbn [String.length] in *. lia. }
  destruct (Ascii.eqb c "\").
  - apply (G t). cbn [String.length]. lia.
  - apply (G (String c t)). lia.
Qed.

Lemma drop_one (c : ascii) (t : string) : filepath.drop 1 (String c t) = t.
Proof.
  unfold filepath.drop. cbn [String.length substring Nat.sub].
  rewrite Nat.sub_0_r. apply substring_all.
Qed.

Lemma classRanges_decided (fuel : nat) :
  forall (chunk : string) (r : Z) (nrange : nat) (matched : bool),
    (String.length chunk < fuel)%nat ->
    filepath.classRanges fuel chunk r nrange matched = Fail ErrBadPattern
    \/ exists m rest,
         filepath.classRanges fuel chunk r nrange matched = Ret (m, rest)
         /\ (String.length rest < String.length chunk)%nat.
Proof.
  induction fuel as [|fuel IH]; intros chunk r nrange matched Hlen; [lia|].
  cbn [filepath.classRanges].
  destruct (match chunk with
            | String c _ => Ascii.eqb c "]" && (0 <? nrange)%nat
            | EmptyString => false
            end) eqn:C.
  - destruct chunk as [|c t]; [discriminate C|]. right.
    exists matched, t. rewrite drop_one. split; [reflexivity|].
    cbn [String.length]. lia.
  - destruct (getEsc_decided chunk) as [E | (lo & chunk1 & E & L1)];
      rewrite E; cbn [bind]; [left; reflexivity|].
    destruct chunk1 as [|c t]; [cbn [String.length] in L1; lia|].
    destruct (Ascii.eqb c "-").
    + destruct (getEsc_decided t) as [E2 | (hi & chunk2 & E2 & L2)];
        rewrite E2; cbn [bind]; [left; reflexivity|].
      destruct (IH chunk2 r (S nrange)
                  (matched || ((lo <=? r)%Z && (r <=? hi)%Z)))
        as [F | (m & rest & F & L)]; [cbn [String.length] in *; lia | |].
      * left. exact F.
      * right. exists m, rest. split; [exact F|].
        cbn [String.length] in *. lia.
    + cbn [bind].
      destruct (IH (String c t) r (S nrange)
                  (matched || ((lo <=? r)%Z && (r <=? lo)%Z)))
        as [F | (m & rest & F & L)]; [lia | |].
      * left. exact F.
      * right. exists m, rest. split; [exact F | lia].
Qed.

Lemma matchChunk_loop_decided (fuel : nat) :
  forall (chunk s : string) (failed : bool),
    (String.length chunk < fuel)%nat ->
    decided (filepath.matchChunk_loop fuel chunk s failed).
Proof.
  induction fuel as [|fuel IH]; intros chunk s failed Hlen; [lia|].
  cbn [filepath.matchChunk_loop].
  destruct chunk as [|c chunk1].
  { right. destruct failed; eauto. }
  cbn [String.length] in Hlen. cbv zeta.
  destruct (Ascii.eqb c "[").
  - destruct (if negb (failed || (String.length s =? 0)%nat)
              then let '(r, n) := utf8.DecodeRuneInString s in
                   (r, filepath.drop n s)
              else (0%Z, s)) as [r s'].
    destruct (match chunk1 with
              | String n t => if Ascii.eqb n "^" then (true, t) else (false, chunk1)
              | EmptyString => (false, chunk1)
              end) as [negated chunk2] eqn:N.
    assert (L2 : (String.length chunk2 <= String.length chunk1)%nat).
    { destruct chunk1 as [|n t]; [inversion N; lia|].
      destruct (Ascii.eqb n "^"); inversion N; cbn [String.length]; lia. }
    destruct (classRanges_decided (S (String.length chunk2)) chunk2 r 0 false)
      as [E | (m & chunk3 & E & L3)]; [lia | |]; rewrite E; cbn [bind].
    + left. reflexivity.
    + apply IH. lia.
  - destruct (Ascii.eqb c "?").
    + destruct s as [|s0 s1].
      * cbn [String.length Nat.eqb]. rewrite orb_true_r. cbn [negb].
        apply IH. lia.
      * destruct (negb (failed || (String.length (String s0 s1) =? 0)%nat)).
        -- destruct (utf8.DecodeRuneInString (String s0 s1)) as [r0 n].
           apply IH. lia.
        -- apply IH. lia.
    + assert (K : forall c0 rest,
                 (String.length rest < fuel)%nat ->
                 decided
                   (if negb (failed || (String.length s =? 0)%nat)
                    then match s with
                         | EmptyString => Panics
                         | String s0 s1 =>
                           filepath.matchChunk_loop fuel rest s1
                             (negb (Ascii.eqb c0 s0))
                         end
                    else filepath.matchChunk_loop fuel rest s
                           (failed || (String.length s =? 0)%nat))).
      { intros c0 rest Hr. destruct s as [|s0 s1].
        - cbn [String.length Nat.eqb]. rewrite orb_true_r. cbn [negb].
          apply IH. exact Hr.
        - destruct (negb (failed || (String.length (String s0 s1) =? 0)%nat));
            apply IH; exact Hr. }
      destruct (Ascii.eqb c "\").
      * destruct chunk1 as [|c0 rest]; cbn [bind]; [left; reflexivity|].
        apply K. cbn [String.length] in Hlen. lia.
      * cbn [bind]. apply K. lia.
Qed.

Lemma matchChunk_decided (chunk s : string) :
  decided (filepath.matchChunk chunk s).
Proof. apply matchChunk_loop_decided. lia. Qed.

Lemma Match_skip_decided (chunk : string) (last : bool) :
  forall name, decided (filepath.Match_skip chunk last name).
Proof.
  induction name as [|c rest IH]; cbn [filepath.Match_skip].
  - right. eauto.
  - destruct (Ascii.eqb c filepath.Separator); [right; eauto|].
    destruct (matchChunk_decided chunk rest) as [E | [[t|] E]]; rewrite E;
      cbn [bind]; [left; reflexivity | | exact IH].
    destruct (last && negb (String.length t =? 0)%nat); [exact IH|].
    right. eauto.
Qed.

Lemma scanChunk_scan_length (n : nat) :
  forall (pattern : string) (inrange : bool),
    (String.length pattern <= n)%nat ->
    (String.length (snd (filepath.scanChunk_scan pattern inrange))
     <= String.length pattern)%nat.
Proof.
  induction n as [|n IH]; intros pattern inrange Hlen.
  - destruct pattern; [cbn; lia | cbn [String.length] in Hlen; lia].
  - destruct pattern as [|c t]; [cbn; lia|].
    cbn [String.length] in Hlen. cbn [filepath.scanChunk_scan].
    destruct (Ascii.eqb c "\").
    + destruct t as [|c2 t2]; [cbn; lia|].
      cbn [String.length] in Hlen.
      specialize (IH t2 inrange ltac:(lia)).
      destruct (filepath.scanChunk_scan t2 inrange) as [chunk rest].
      cbn [snd String.length] in *. lia.
    + destruct (Ascii.eqb c "*" && negb inrange); [cbn [snd]; lia|].
      match goal with
      | |- context [filepath.scanChunk_scan t ?i] =>
        specialize (IH t i ltac:(lia));
          destruct (filepath.scanChunk_scan t i) as [chunk rest]
      end.
      cbn [snd String.length] in *. lia.
Qed.

Lemma skipStars_length (pattern : string) :
  (String.length (filepath.skipStars pattern) <= String.length pattern)%nat.
Proof.
  induction pattern as [|c t IH]; cbn [filepath.skipStars]; [lia|].
  destruct (Ascii.eqb c "*"); cbn [String.length] in *; lia.
Qed.

Lemma scanChunk_length (c : ascii) (t : string) :
  (String.length (snd (filepath.scanChunk (String c t)))
   < String.length (String c t))%nat.
Proof.
  unfold filepath.scanChunk. cbn [filepath.skipStars].
  destruct (Ascii.eqb c "*") eqn:E.
  - pose proof (skipStars_length t) as S1.
    pose proof (scanChunk_scan_length _ (filepath.skipStars t) false (le_n _)) as S2.
    destruct (filepath.scanChunk_scan (filepath.skipStars t) false) as [chunk rest].
    cbn [snd String.length] in *. lia.
  - cbn [filepath.scanChunk_scan]. rewrite E. cbn [andb].
    destruct (Ascii.eqb c "\").
    + destruct t as [|c2 t2]; [cbn; lia|].
      pose proof (scanChunk_scan_length _ t2 false (le_n _)) as S2.
      destruct (filepath.scanChunk_scan t2 false) as [chunk rest].
      cbn [snd String.length] in *. lia.
    + match goal with
      | |- context [filepath.scanChunk_scan t ?i] =>
        pose proof (scanChunk_scan_length _ t i (le_n _)) as S2;
          destruct (filepath.scanChunk_scan t i) as [chunk rest]
      end.
      cbn [snd String.length] in *. lia.
Qed.

Lemma Match_loop_decided (fuel : nat) :
  forall pattern name,
    (String.length pattern < fuel)%nat ->
    decided (filepath.Match_loop fuel pattern name).
Proof.
  induction fuel as [|fuel IH]; intros pattern name Hlen; [lia|].
  cbn [filepath.Match_loop].
  destruct pattern as [|c t]; [right; eauto|].
  pose proof (scanChunk_length c t) as L.
  destruct (filepath.scanChunk (String c t)) as [[star chunk] rest].
  cbn [snd] in L.
  destruct (star && String.eqb chunk EmptyString); [right; eauto|].
  destruct (matchChunk_decided chunk name) as [E | [x E]]; rewrite E;
    cbn [bind]; [left; reflexivity|].
  cbv zeta.
  destruct (match x with
            | Some t0 =>
              if (String.length t0 =? 0)%nat
                 || negb (String.length rest =? 0)%nat
              then Some t0 else None
            | None => None
            end) as [t1|].
  - apply IH. lia.
  - destruct star; [|right; eauto].
    destruct (Match_skip_decided chunk (String.length rest =? 0)%nat name)
      as [E2 | [[t2|] E2]]; rewrite E2; cbn [bind].
    + left. reflexivity.
    + apply IH. lia.
    + right. eauto.
Qed.

(** [filepath.Match] returns a boolean or [ErrBadPattern] on every pattern
    and every name: it neither panics nor runs out of steps. *)
Lemma Match_decided (pattern name : string) :
  decided (filepath.Match pattern name).
Proof. apply Match_loop_decided. lia. Qed.

Lemma NewPattern_no_panic (pattern : string) :
  pattern <> EmptyString -> NewPattern pattern <> Panics.
Proof.
  intros Hne. rewrite NewPattern_cases.
  destruct pattern as [|c0 rest]; [contradiction|].
  destruct (Ascii.eqb c0 "!").
  - destruct rest as [|c1 rest']; [discriminate|].
    pose proof (Compile_benign (String c1 rest')) as B.
    destruct (Compile (String c1 rest')); cbn [bind]; try discriminate.
    exfalso. exact B.
  - pose proof (Compile_benign (String c0 rest)) as B.
    destruct (Compile (String c0 rest)); cbn [bind]; try discriminate.
    exfalso. exact B.
Qed.

(** ** [NewPatterns] and the evaluators on its rules *)

(** One rule of [NewPatterns], by the outcome of [filepath.Match]. *)
Lemma NewPatterns_cons (r : string) (rules : list string) :
  NewPatterns (r :: rules)
  = match strings.TrimSpace r with
    | EmptyString => NewPatterns rules
    | String _ _ as p =>
      matched <- filepath.Match (filepath.Clean p) "." ;;
      newp <- NewPattern (filepath.Clean p) ;;
      matchPatters <- NewPatterns rules ;;
      Ret (newp :: matchPatters)
    end.
Proof.
  cbn [NewPatterns]. destruct (strings.TrimSpace r); reflexivity.
Qed.

(** X14: [NewPatterns] never panics, whatever the rules: [NewPattern],
    which indexes the first byte of its argument, is only called on a
    cleaned path, and a cleaned path is not empty; and [filepath.Match]
    returns on every pattern.  The answer of the model is undecided only
    where the compilation of the expression of one of the rules is. *)
Theorem NewPatterns_never_panics (rules : list string) :
  NewPatterns rules <> Panics
  /\ (NewPatterns rules = Beyond ->
      exists rule,
        In rule rules
        /\ NewPattern (filepath.Clean (strings.TrimSpace rule)) = Beyond).
Proof.
  induction rules as [|r rules [IH1 IH2]].
  - split; [discriminate|]. intros H. discriminate H.
  - rewrite NewPatterns_cons.
    destruct (strings.TrimSpace r) as [|c q] eqn:T.
    { split; [exact IH1|]. intros H. destruct (IH2 H) as (rule & Hin & Hb).
      exists rule. split; [right; exact Hin | exact Hb]. }
    cbv beta iota zeta.
    destruct (Match_decided (filepath.Clean (String c q)) ".") as [E | [b E]];
      rewrite E; cbn [bind].
    { split; intros H; discriminate H. }
    pose proof (NewPattern_no_panic _ (Clean_not_empty (String c q))) as N.
    destruct (NewPattern (filepath.Clean (String c q))) as [newp| | |] eqn:P;
      cbn [bind].
    + destruct (NewPatterns rules) as [ps| | |]; cbn [bind].
      * split; intros H; discriminate H.
      * split; intros H; discriminate H.
      * exfalso. apply IH1. reflexivity.
      * split; [discriminate|]. intros _.
        destruct (IH2 eq_refl) as (rule & Hin & Hb).
        exists rule. split; [right; exact Hin | exact Hb].
    + split; intros H; discriminate H.
    + exfalso. apply N. reflexivity.
    + split; [discriminate|]. intros _. exists r.
      split; [left; reflexivity|]. rewrite T. exact P.
Qed.

Lemma NewPatterns_never_panics_witness :
  NewPatterns ["docs"; "a[[:alpha:]]"] = Beyond
  /\ exists rule,
       In rule ["docs"; "a[[:alpha:]]"]
       /\ NewPattern (filepath.Clean (strings.TrimSpace rule)) = Beyond.
Proof.
  assert (E : NewPatterns ["docs"; "a[[:alpha:]]"] = Beyond)
    by (vm_compute; reflexivity).
  split; [exact E|].
  apply (NewPatterns_never_panics ["docs"; "a[[:alpha:]]"]). exact E.
Defined.

(** X15: The rules are compiled one by one, in order: the rules of two lists
    put together compile to the compiled rules of the first followed by
    those of the second, and an error in the first list comes first.  A
    rule on its own gives no pattern when it is blank, and otherwise the
    error of [filepath.Match] on its trimmed and cleaned form or the one
    pattern that [NewPattern] makes of that form. *)
Theorem NewPatterns_app (rules1 rules2 : list string) :
  NewPatterns (rules1 ++ rules2)%list
  = (patterns1 <- NewPatterns rules1 ;;
     patterns2 <- NewPatterns rules2 ;;
     Ret (patterns1 ++ patterns2)%list)
  /\ forall rule,
       NewPatterns [rule]
       = match strings.TrimSpace rule with
         | EmptyString => Ret []
         | String _ _ as p =>
           matched <- filepath.Match (filepath.Clean p) "." ;;
           newp <- NewPattern (filepath.Clean p) ;;
           Ret [newp]
         end.
Proof.
  split.
  - induction rules1 as [|r rules1 IH].
    + cbn [app NewPatterns bind]. destruct (NewPatterns rules2); reflexivity.
    + cbn [app]. rewrite !NewPatterns_cons.
      destruct (strings.TrimSpace r) as [|c q]; [exact IH|].
      cbv beta iota zeta.
      destruct (filepath.Match (filepath.Clean (String c q)) ".");
        cbn [bind]; try reflexivity.
      destruct (NewPattern (filepath.Clean (String c q))); cbn [bind];
        try reflexivity.
      rewrite IH.
      destruct (NewPatterns rules1); cbn [bind]; try reflexivity.
      destruct (NewPatterns rules2); reflexivity.
  - intros rule. rewrite NewPatterns_cons.
    destruct (strings.TrimSpace rule) as [|c q]; [reflexivity|].
    cbv beta iota zeta.
    destruct (filepath.Match (filepath.Clean (String c q)) ".");
      reflexivity.
Qed.

(** X16: A rule that is empty once the white space around it is trimmed,
    the white space of Unicode included, is dropped, wherever it stands
    among the rules. *)
Theorem blank_rule_dropped (rules1 rules2 : list string) (blank : string) :
  strings.TrimSpace blank = EmptyString ->
  NewPatterns (rules1 ++ blank :: rules2)%list
  = NewPatterns (rules1 ++ rules2)%list.
Proof.
  intros Hb. induction rules1 as [|r rules1 IH].
  - cbn [app]. rewrite NewPatterns_cons, Hb. reflexivity.
  - cbn [app]. rewrite !NewPatterns_cons, IH. reflexivity.
Qed.

Lemma blank_rule_dropped_witness :
  strings.TrimSpace
    (String (byte_of 9) (String (byte_of 194) (String (byte_of 160) " ")))
  = EmptyString
  /\ NewPatterns
       (["*.go"]
        ++ String (byte_of 9) (String (byte_of 194) (String (byte_of 160) " "))
        :: ["!main.go"])%list
     = NewPatterns (["*.go"] ++ ["!main.go"])%list.
Proof.
  split; [vm_compute; reflexivity|]. apply blank_rule_dropped.
  vm_compute. reflexivity.
Defined.

(** X17: On the rules that [NewPatterns] returns the evaluators return: the
    full evaluator on every path, the incremental evaluator on every path
    with a parent state that is empty or has one entry for each rule;
    neither panics nor returns an error. *)
Theorem compiled_rules_evaluate (rules : list string) (patterns : list Pattern) :
  NewPatterns rules = Ret patterns ->
  (forall file, exists matched, MatchesOrParentMatches patterns file = Ret matched)
  /\ (forall file parentMatched,
         parentMatched = [] \/ List.length parentMatched = List.length patterns ->
         exists matched matchInfo,
           MatchesUsingParentResults patterns file parentMatched
           = Ret (matched, matchInfo)).
Proof.
  intros H. pose proof (NewPatterns_safe rules patterns H) as Hs. split.
  - intros file. unfold MatchesOrParentMatches.
    destruct (String.eqb (filepath.Clean file) "."); [eauto|].
    rewrite full_loop_decide by exact Hs. eauto.
  - intros file pm Hpm.
    destruct pm as [|b pm].
    + pose proof (zero_state_loop patterns (filepath.FromSlash file) 0 false
                    (repeat false (List.length patterns))) as Z.
      rewrite full_loop_decide in Z by exact Hs.
      unfold MatchesUsingParentResults. cbn [List.length Nat.eqb negb andb].
      destruct (MatchesUsingParentResults_loop patterns 0 (filepath.FromSlash file)
                  [] false (repeat false (List.length patterns)))
        as [[v info]| | |]; try discriminate Z.
      eauto.
    + destruct Hpm as [Hpm|Hpm]; [discriminate Hpm|].
      rewrite (incremental_with_state patterns file (b :: pm) Hs);
        [|discriminate | exact Hpm].
      destruct (levelAll patterns (b :: pm) file false) as [v info]. eauto.
Qed.

Lemma compiled_rules_evaluate_witness :
  exists patterns,
    NewPatterns ["a*[]a]"; "!café"; "*a*[a-]"; " "] = Ret patterns
    /\ (forall file, exists matched,
           MatchesOrParentMatches patterns file = Ret matched)
    /\ (forall file parentMatched,
           parentMatched = [] \/ List.length parentMatched = List.length patterns ->
           exists matched matchInfo,
             MatchesUsingParentResults patterns file parentMatched
             = Ret (matched, matchInfo)).
Proof.
  eexists. split; [vm_compute; reflexivity|].
  apply (compiled_rules_evaluate ["a*[]a]"; "!café"; "*a*[a-]"; " "]).
  vm_compute. reflexivity.
Defined.

(** ** The path the incremental evaluator works on *)

(** C9, as stated, does not hold: the incremental entry point does not
    evaluate the rules against the path exactly as given.  Without parent
    state the parent directories it tests are those of [filepath.Dir] of
    the path, which is cleaned: the rule [b] matches "a/../b/c", whose
    parent directory cleans to "b", though the rule matches neither the
    path as it is given nor any of its prefixes "a", "a/.." and
    "a/../b". *)
Lemma parent_directory_is_cleaned :
  exists rule,
    NewPatterns ["b"] = Ret [rule]
    /\ MatchesUsingParentResults [rule] "a/../b/c" [] = Ret (true, [true])
    /\ Match rule "a/../b/c" = Ret false
    /\ Match rule "a/../b" = Ret false
    /\ Match rule "a/.." = Ret false
    /\ Match rule "a" = Ret false
    /\ filepath.Dir "a/../b/c" = "b"
    /\ Match rule "b" = Ret true.
Proof.
  eexists. split; [vm_compute; reflexivity|].
  repeat split; vm_compute; reflexivity.
Qed.

(** C9, amended: the incremental entry point has no current-directory
    guard and does not clean the path it is given.  On the path "." with
    the rules ["*"] and an empty parent state it answers [true], where the
    full evaluator answers [false]; on "./a.go" with the rules ["a.go"] it
    answers [false], where the full evaluator, which cleans the path,
    answers [true].  Every rule it evaluates is tested on the path as it
    is given ([FromSlash] is the identity).  Cleaning is left in one place:
    with an empty parent state, a rule that does not match the path is
    tested on the prefixes of [filepath.Dir] of the path, which is cleaned,
    unless that is "."; the verdict is that of the loop of the full
    evaluator run on the path as given and that parent directory, and on
    rules whose [Match] returns it is the decision of the last rule that
    hits the path or one of these prefixes.  With the state of a parent no
    parent directory is tested and nothing is cleaned: a rule hits when the
    parent matched it or it matches the path as given, and the last rule
    that hits decides. *)
Theorem incremental_path_handling :
  (ps <- NewPatterns ["*"] ;; verdict (MatchesUsingParentResults ps "." []))
  = Ret true
  /\ matchesOrParentMatches ["*"] "." = Ret false
  /\ (ps <- NewPatterns ["a.go"] ;;
      verdict (MatchesUsingParentResults ps "./a.go" [])) = Ret false
  /\ matchesOrParentMatches ["a.go"] "./a.go" = Ret true
  /\ (forall (patterns : list Pattern) (file : string),
         verdict (MatchesUsingParentResults patterns file [])
         = MatchesOrParentMatches_loop patterns (filepath.FromSlash file)
             (filepath.Dir file)
             (strings.Split (filepath.Dir file) PathSeparator) false)
  /\ (forall (patterns : list Pattern) (file : string),
         Forall safe patterns ->
         verdict (MatchesUsingParentResults patterns file [])
         = Ret (decision
                  (hit file (filepath.Dir file)
                     (strings.Split (filepath.Dir file) PathSeparator))
                  patterns))
  /\ (forall (patterns : list Pattern) (file : string) (parentMatched : list bool),
         Forall safe patterns ->
         parentMatched <> [] ->
         List.length parentMatched = List.length patterns ->
         verdict (MatchesUsingParentResults patterns file parentMatched)
         = Ret (match find (hitWithParent file)
                        (rev (combine patterns parentMatched)) with
                | Some rule => negb (Exclusion (fst rule))
                | None => false
                end))
  /\ (forall (rule : Pattern) (file : string) (parent : bool),
         verdict (MatchesUsingParentResults [rule] file [parent])
         = if parent then Ret (negb (Exclusion rule))
           else if Exclusion rule then Ret false
           else Match rule file).
Proof.
  split; [vm_compute; reflexivity|].
  split; [vm_compute; reflexivity|].
  split; [vm_compute; reflexivity|].
  split; [vm_compute; reflexivity|].
  assert (Z : forall (patterns : list Pattern) (file : string),
             verdict (MatchesUsingParentResults patterns file [])
             = MatchesOrParentMatches_loop patterns (filepath.FromSlash file)
                 (filepath.Dir file)
                 (strings.Split (filepath.Dir file) PathSeparator) false).
  { intros patterns file. unfold MatchesUsingParentResults. simpl.
    apply zero_state_loop. }
  split; [exact Z|]. split; [|split].
  - intros patterns file Hs. rewrite Z. unfold filepath.FromSlash.
    rewrite full_loop_decide by exact Hs. rewrite fold_decide. reflexivity.
  - intros patterns file pm Hs Hne Hlen.
    rewrite (incremental_with_state patterns file pm Hs Hne Hlen).
    rewrite <- fold_last_hit, <- levelAll_verdict.
    destruct (levelAll patterns pm file false). reflexivity.
  - intros rule file parent. unfold MatchesUsingParentResults. simpl.
    destruct parent; simpl; [reflexivity|].
    destruct (Exclusion rule); simpl; [reflexivity|].
    unfold filepath.FromSlash.
    destruct (Match rule file) as [m| | |]; simpl; try reflexivity.
    destruct m; reflexivity.
Qed.

Lemma incremental_path_handling_witness :
  exists patterns,
    NewPatterns ["b"; "!b/c"] = Ret patterns
    /\ verdict (MatchesUsingParentResults patterns "a/../b/c" [])
       = Ret (decision
                (hit "a/../b/c" (filepath.Dir "a/../b/c")
                   (strings.Split (filepath.Dir "a/../b/c") PathSeparator))
                patterns)
    /\ verdict (MatchesUsingParentResults patterns "b/c" [true; false])
       = Ret (match find (hitWithParent "b/c")
                      (rev (combine patterns [true; false])) with
              | Some rule => negb (Exclusion (fst rule))
              | None => false
              end).
Proof.
  eexists. split; [vm_compute; reflexivity|].
  destruct incremental_path_handling as (_ & _ & _ & _ & _ & H6 & H7 & _).
  split.
  - apply H6. apply (NewPatterns_safe ["b"; "!b/c"]). vm_compute. reflexivity.
  - apply H7.
    + apply (NewPatterns_safe ["b"; "!b/c"]). vm_compute. reflexivity.
    + discriminate.
    + reflexivity.
Defined.
